(** * Receiver configurations of the alert manager: decoding and validation

    A shallow embedding of [config/notifies.go].  Every receiver type of the
    package implements [yaml.Unmarshaler]: its [UnmarshalYAML] method resets the
    receiver to the package default (where there is one), lets the YAML library
    overlay the document onto it through the [unmarshal] callback, and then
    validates the result.

    The embedding passes state explicitly.  A method call takes the callback,
    the value the receiver points to and the store of map objects, and returns
    the error (or nil), the receiver's new value and the new store. *)

From Stdlib Require Import ZArith String Ascii.
From stdpp Require Import gmap strings list fin_maps.

(** ** Values *)

(** The generic document tree handed over by the YAML parser.  Values of the
    catch-all field [XXX] (Go's [interface{}]) are such trees too. *)
#[warnings="-register-all"]
Inductive yaml : Type :=
| YNull
| YStr (s : string)
| YInt (z : Z)
| YBool (b : bool)
| YSeq (items : list yaml)
| YMap (entries : list (string * yaml)).

(** Go's [error] values.  [Errorf format args] is [fmt.Errorf(format, args...)]
    with the format kept as the source writes it; the other two are the errors
    of the parts that live outside [notifies.go]. *)
Inductive error : Type :=
| Errorf (format : string) (args : list string)
| UnrecognizedFields (ctx : string) (keys : gset string)
| TypeCoercionError (variant field expected : string).

(** ** The store of map objects

    A [map[string]string] is a reference: a struct field of that type holds
    nil or the address of a map object, and copying the struct copies the
    address, not the object. *)
Abbreviation strmap := (gmap string string).
Abbreviation loc := nat.
Abbreviation gomap := (option loc).
Abbreviation heap := (list strmap).

(** [make(map[string]string)] followed by filling in [m]: a new object at the
    first unused address. *)
Definition make (m : strmap) (h : heap) : loc * heap := (length h, h ++ [m]).

(** The entries seen through a reference; a nil map reads as empty. *)
Definition deref (h : heap) (r : gomap) : strmap :=
  match r with
  | Some l => default ∅ (h !! l)
  | None => ∅
  end.

(** [m[k] = v] through the non-nil reference [l]. *)
Definition store (l : loc) (k v : string) (h : heap) : heap :=
  alter (insert k v) l h.

(** What a call on a pointer receiver leaves behind. *)
Record outcome (T : Type) : Type :=
  Outcome { err : option error; recv : T; mem : heap }.
Arguments Outcome {T} _ _ _.
Arguments err {T} _.
Arguments recv {T} _.
Arguments mem {T} _.

(** The [unmarshal] callback: it is given the pointer to the receiver, so it
    may change the receiver's fields and every map object reachable from them. *)
Abbreviation unmarshaler T := (T → heap → outcome T).

(** ** What the Go runtime and standard library contribute *)

Definition is_lower (a : ascii) : bool :=
  let n := N_of_ascii a in ((97 <=? n) && (n <=? 122))%N.

Definition upper_byte (a : ascii) : ascii :=
  if is_lower a then ascii_of_N (N_of_ascii a - 32) else a.

Fixpoint upper (s : string) : string :=
  match s with
  | EmptyString => EmptyString
  | String a s => String (upper_byte a) (upper s)
  end.

Fixpoint has_lower (s : string) : bool :=
  match s with
  | EmptyString => false
  | String a s => is_lower a || has_lower s
  end.

Fixpoint is_ascii (s : string) : bool :=
  match s with
  | EmptyString => true
  | String a s => (N_of_ascii a <? 128)%N && is_ascii s
  end.

(** [strings.ToTitle] maps every letter to its Unicode title case; its case
    table is not part of the repository.  What is used of it: on ASCII text it
    is the upper-casing of the letters a-z, and no ASCII lower-case letter
    survives it.  [range] is the order in which a [for ... range] loop visits
    the entries of a map, which Go leaves unspecified. *)
Class Runtime : Type := {
  ToTitle : string → string;
  ToTitle_ascii : ∀ s, is_ascii s = true → ToTitle s = upper s;
  ToTitle_no_lower : ∀ s, has_lower (ToTitle s) = false;
  range : strmap → list (string * string);
  range_perm : ∀ m, range m ≡ₚ map_to_list m
}.

(** A Go string literal in double quotes, as the template texts embed them. *)
Definition quoted (s : string) : string :=
  String (ascii_of_nat 34) s +:+ String (ascii_of_nat 34) EmptyString.

(** Modelled from the spec: [checkOverflow] is a helper of package [config]
    defined outside [notifies.go].  By the spec a non-empty residual-keys map is
    a terminal error that carries the context it is given and names every
    residual key; an empty (or nil) one is no error. *)
Definition checkOverflow (m : gmap string yaml) (ctx : string) : option error :=
  if decide (0 < size m) then Some (UnrecognizedFields ctx (dom m)) else None.

(** ** EmailConfig *)

Module EmailConfig.

Record t : Type := {
  To : string;
  From : string;
  Smarthost : string;
  Headers : gomap;
  HTML : string;
  XXX : gmap string yaml
}.

Definition with_Headers (c : t) (hs : gomap) : t :=
  {| To := To c; From := From c; Smarthost := Smarthost c; Headers := hs;
     HTML := HTML c; XXX := XXX c |}.

(** [DefaultEmailConfig] defines default values for Email configurations. *)
Definition DefaultEmailConfig : t :=
  {| To := ""; From := ""; Smarthost := ""; Headers := None;
     HTML := "{{ template " +:+ quoted "email.default.html" +:+ " . }}";
     XXX := ∅ |}.

(** [DefaultEmailSubject] defines the default Subject header of an Email. *)
Definition DefaultEmailSubject : string :=
  "{{ template " +:+ quoted "email.default.subject" +:+ " . }}".

(** The loop over the supplied headers: header names are case-insensitive,
    check for collisions.  [normalizedHeaders] is the local map under
    construction. *)
Fixpoint normalize `{Runtime} (entries : list (string * string))
    (normalizedHeaders : strmap) : error + strmap :=
  match entries with
  | [] => inr normalizedHeaders
  | (h, v) :: entries =>
      let normalized := ToTitle h in
      match normalizedHeaders !! normalized with
      | Some _ => inl (Errorf "duplicate header %q in email config" [normalized])
      | None => normalize entries (<[normalized := v]> normalizedHeaders)
      end
  end.

(** [if _, ok := c.Headers[k]; !ok { c.Headers[k] = v }] *)
Definition set_if_absent (l : loc) (k v : string) (h : heap) : heap :=
  match deref h (Some l) !! k with
  | Some _ => h
  | None => store l k v h
  end.

Definition UnmarshalYAML `{Runtime} (unmarshal : unmarshaler t)
    (c : t) (h : heap) : outcome t :=
  let c := DefaultEmailConfig in
  let r := unmarshal c h in
  match err r with
  | Some e => r
  | None =>
      let c := recv r in
      let h := mem r in
      if decide (To c = "") then
        Outcome (Some (Errorf "missing to address in email config" [])) c h
      else
        match normalize (range (deref h (Headers c))) ∅ with
        | inl e => Outcome (Some e) c h
        | inr normalizedHeaders =>
            let (l, h) := make normalizedHeaders h in
            let c := with_Headers c (Some l) in
            let h := set_if_absent l "Subject" DefaultEmailSubject h in
            let h := set_if_absent l "To" (To c) h in
            let h := set_if_absent l "From" (From c) h in
            Outcome (checkOverflow (XXX c) "email config") c h
        end
  end.

End EmailConfig.

(** ** FlowdockConfig *)

Module FlowdockConfig.

Record t : Type := {
  APIToken : string;
  FromAddress : string;
  Tags : list string;
  XXX : gmap string yaml
}.

Definition UnmarshalYAML (unmarshal : unmarshaler t) (c : t) (h : heap) : outcome t :=
  let r := unmarshal c h in
  match err r with
  | Some e => r
  | None =>
      let c := recv r in
      let h := mem r in
      if decide (APIToken c = "") then
        Outcome (Some (Errorf "missing API token in Flowdock config" [])) c h
      else if decide (FromAddress c = "") then
        Outcome (Some (Errorf "missing from address in Flowdock config" [])) c h
      else
        Outcome (checkOverflow (XXX c) "flowdock config") c h
  end.

End FlowdockConfig.

(** ** HipchatConfig *)

(** [HipchatFormat] defines text formats for Hipchat; it is a string type. *)
Abbreviation HipchatFormat := string (only parsing).
Definition HipchatFormatHTML : HipchatFormat := "html".
Definition HipchatFormatText : HipchatFormat := "text".

Module HipchatConfig.

Record t : Type := {
  AuthToken : string;
  RoomID : Z;
  Color : string;
  Notify : bool;
  Prefix : string;
  MessageFormat : HipchatFormat;
  XXX : gmap string yaml
}.

(** [DefaultHipchatConfig] defines default values for Hipchat configurations. *)
Definition DefaultHipchatConfig : t :=
  {| AuthToken := ""; RoomID := 0;
     Color := "{{ if eq .Status " +:+ quoted "firing"
              +:+ " }}purple{{ else }}green{{ end }}";
     Notify := false; Prefix := "";
     MessageFormat := HipchatFormatHTML; XXX := ∅ |}.

Definition UnmarshalYAML (unmarshal : unmarshaler t) (c : t) (h : heap) : outcome t :=
  let c := DefaultHipchatConfig in
  let r := unmarshal c h in
  match err r with
  | Some e => r
  | None =>
      let c := recv r in
      let h := mem r in
      if decide (AuthToken c = "") then
        Outcome (Some (Errorf "missing auth token in HipChat config" [])) c h
      else if decide (MessageFormat c ≠ HipchatFormatHTML
                      ∧ MessageFormat c ≠ HipchatFormatText) then
        Outcome (Some (Errorf "invalid message format %q" [MessageFormat c])) c h
      else
        Outcome (checkOverflow (XXX c) "hipchat config") c h
  end.

End HipchatConfig.

(** ** PagerdutyConfig *)

Module PagerdutyConfig.

Record t : Type := {
  ServiceKey : string;
  URL : string;
  Client : string;
  ClientURL : string;
  Description : string;
  Details : gomap;
  XXX : gmap string yaml
}.

(** The map object that the [Details] literal of [DefaultPagerdutyConfig]
    creates when the package is initialised: the first object of the store. *)
Definition DefaultDetails : strmap :=
  {[ "firing" := "{{ template " +:+ quoted "pagerduty.default.instances"
                 +:+ " (.Alerts | firing) }}";
     "resolved" := "{{ template " +:+ quoted "pagerduty.default.instances"
                   +:+ " (.Alerts | resolved) }}";
     "num_firing" := "{{ .Alerts | firing | len }}";
     "num_resolved" := "{{ .Alerts | resolved | len }}" ]}.

Definition details_loc : loc := 0.

(** [DefaultPagerdutyConfig] defines default values for PagerDuty
    configurations. *)
Definition DefaultPagerdutyConfig : t :=
  {| ServiceKey := ""; URL := "";
     Client := "{{ template " +:+ quoted "pagerduty.default.client" +:+ " . }}";
     ClientURL := "{{ template " +:+ quoted "pagerduty.default.clientURL" +:+ " . }}";
     Description := "{{ template " +:+ quoted "pagerduty.default.description" +:+ " .}}";
     Details := Some details_loc; XXX := ∅ |}.

Definition UnmarshalYAML (unmarshal : unmarshaler t) (c : t) (h : heap) : outcome t :=
  let c := DefaultPagerdutyConfig in
  let r := unmarshal c h in
  match err r with
  | Some e => r
  | None =>
      let c := recv r in
      let h := mem r in
      if decide (ServiceKey c = "") then
        Outcome (Some (Errorf "missing service key in PagerDuty config" [])) c h
      else
        Outcome (checkOverflow (XXX c) "pagerduty config") c h
  end.

End PagerdutyConfig.

(** The store once the package is initialised: the only map object is the one
    [DefaultPagerdutyConfig.Details] refers to. *)
Definition initial_heap : heap := [PagerdutyConfig.DefaultDetails].

(** ** PushoverConfig *)

Module PushoverConfig.

Record t : Type := {
  Token : string;
  UserKey : string;
  XXX : gmap string yaml
}.

Definition UnmarshalYAML (unmarshal : unmarshaler t) (c : t) (h : heap) : outcome t :=
  let r := unmarshal c h in
  match err r with
  | Some e => r
  | None =>
      let c := recv r in
      let h := mem r in
      if decide (Token c = "") then
        Outcome (Some (Errorf "missing token in Pushover config" [])) c h
      else if decide (UserKey c = "") then
        Outcome (Some (Errorf "missing user key in Pushover config" [])) c h
      else
        Outcome (checkOverflow (XXX c) "pushover config") c h
  end.

End PushoverConfig.

(** ** SlackConfig *)

Module SlackConfig.

Record t : Type := {
  URL : string;
  Channel : string;
  Username : string;
  Color : string;
  Title : string;
  TitleLink : string;
  Pretext : string;
  Text : string;
  Fallback : string;
  XXX : gmap string yaml
}.

Definition slack_template (name : string) : string :=
  "{{ template " +:+ quoted name +:+ " . }}".

(** [DefaultSlackConfig] defines default values for Slack configurations. *)
Definition DefaultSlackConfig : t :=
  {| URL := ""; Channel := "";
     Username := slack_template "slack.default.username";
     Color := "{{ if eq .Status " +:+ quoted "firing"
              +:+ " }}danger{{ else }}good{{ end }}";
     Title := slack_template "slack.default.title";
     TitleLink := slack_template "slack.default.titlelink";
     Pretext := slack_template "slack.default.pretext";
     Text := slack_template "slack.default.text";
     Fallback := slack_template "slack.default.fallback";
     XXX := ∅ |}.

Definition UnmarshalYAML (unmarshal : unmarshaler t) (c : t) (h : heap) : outcome t :=
  let c := DefaultSlackConfig in
  let r := unmarshal c h in
  match err r with
  | Some e => r
  | None =>
      let c := recv r in
      let h := mem r in
      if decide (Channel c = "") then
        Outcome (Some (Errorf "missing channel in Slack config" [])) c h
      else
        Outcome (checkOverflow (XXX c) "slack config") c h
  end.

End SlackConfig.

(** ** WebhookConfig *)

Module WebhookConfig.

Record t : Type := {
  URL : string;
  XXX : gmap string yaml
}.

Definition UnmarshalYAML (unmarshal : unmarshaler t) (c : t) (h : heap) : outcome t :=
  let r := unmarshal c h in
  match err r with
  | Some e => r
  | None =>
      let c := recv r in
      let h := mem r in
      if decide (URL c = "") then
        Outcome (Some (Errorf "missing URL in webhook config" [])) c h
      else
        Outcome (checkOverflow (XXX c) "slack config") c h
  end.

End WebhookConfig.

(** ** OpsGenieConfig *)

Module OpsGenieConfig.

Record t : Type := {
  APIKey : string;
  APIHost : string;
  Description : string;
  Source : string;
  Details : gomap;
  XXX : gmap string yaml
}.

(** [DefaultOpsGenieConfig] defines default values for OpsGenie
    configurations. *)
Definition DefaultOpsGenieConfig : t :=
  {| APIKey := ""; APIHost := "";
     Description := "{{ template " +:+ quoted "opsgenie.default.description" +:+ " . }}";
     Source := "{{ template " +:+ quoted "opsgenie.default.source" +:+ " . }}";
     Details := None; XXX := ∅ |}.

Definition UnmarshalYAML (unmarshal : unmarshaler t) (c : t) (h : heap) : outcome t :=
  let c := DefaultOpsGenieConfig in
  let r := unmarshal c h in
  match err r with
  | Some e => r
  | None =>
      let c := recv r in
      let h := mem r in
      if decide (APIKey c = "") then
        Outcome (Some (Errorf "missing API key in OpsGenie config" [])) c h
      else
        Outcome (checkOverflow (XXX c) "opsgenie config") c h
  end.

End OpsGenieConfig.

(** ** The receiver variants together *)

Inductive variant : Type :=
| Email | Hipchat | Pagerduty | Pushover | Slack | Webhook | OpsGenie | Flowdock.

Definition config (v : variant) : Type :=
  match v with
  | Email => EmailConfig.t
  | Hipchat => HipchatConfig.t
  | Pagerduty => PagerdutyConfig.t
  | Pushover => PushoverConfig.t
  | Slack => SlackConfig.t
  | Webhook => WebhookConfig.t
  | OpsGenie => OpsGenieConfig.t
  | Flowdock => FlowdockConfig.t
  end.

(** The method of the [yaml.Unmarshaler] interface, by receiver type. *)
Definition UnmarshalYAML `{Runtime} (v : variant) :
    unmarshaler (config v) → config v → heap → outcome (config v) :=
  match v with
  | Email => EmailConfig.UnmarshalYAML
  | Hipchat => HipchatConfig.UnmarshalYAML
  | Pagerduty => PagerdutyConfig.UnmarshalYAML
  | Pushover => PushoverConfig.UnmarshalYAML
  | Slack => SlackConfig.UnmarshalYAML
  | Webhook => WebhookConfig.UnmarshalYAML
  | OpsGenie => OpsGenieConfig.UnmarshalYAML
  | Flowdock => FlowdockConfig.UnmarshalYAML
  end.

(** The value the callback is handed: the package default where the method
    starts with [*c = Default...], the receiver as it stands otherwise. *)
Definition seed (v : variant) : config v → config v :=
  match v with
  | Email => λ _, EmailConfig.DefaultEmailConfig
  | Hipchat => λ _, HipchatConfig.DefaultHipchatConfig
  | Pagerduty => λ _, PagerdutyConfig.DefaultPagerdutyConfig
  | Pushover => λ c, c
  | Slack => λ _, SlackConfig.DefaultSlackConfig
  | Webhook => λ c, c
  | OpsGenie => λ _, OpsGenieConfig.DefaultOpsGenieConfig
  | Flowdock => λ c, c
  end.

(** The catch-all field of each receiver type. *)
Definition XXX (v : variant) : config v → gmap string yaml :=
  match v with
  | Email => EmailConfig.XXX
  | Hipchat => HipchatConfig.XXX
  | Pagerduty => PagerdutyConfig.XXX
  | Pushover => PushoverConfig.XXX
  | Slack => SlackConfig.XXX
  | Webhook => WebhookConfig.XXX
  | OpsGenie => OpsGenieConfig.XXX
  | Flowdock => FlowdockConfig.XXX
  end.

(** The same value with nothing in the catch-all field. *)
Definition clear_XXX (v : variant) : config v → config v :=
  match v with
  | Email => λ c,
      {| EmailConfig.To := EmailConfig.To c; EmailConfig.From := EmailConfig.From c;
         EmailConfig.Smarthost := EmailConfig.Smarthost c;
         EmailConfig.Headers := EmailConfig.Headers c;
         EmailConfig.HTML := EmailConfig.HTML c; EmailConfig.XXX := ∅ |}
  | Hipchat => λ c,
      {| HipchatConfig.AuthToken := HipchatConfig.AuthToken c;
         HipchatConfig.RoomID := HipchatConfig.RoomID c;
         HipchatConfig.Color := HipchatConfig.Color c;
         HipchatConfig.Notify := HipchatConfig.Notify c;
         HipchatConfig.Prefix := HipchatConfig.Prefix c;
         HipchatConfig.MessageFormat := HipchatConfig.MessageFormat c;
         HipchatConfig.XXX := ∅ |}
  | Pagerduty => λ c,
      {| PagerdutyConfig.ServiceKey := PagerdutyConfig.ServiceKey c;
         PagerdutyConfig.URL := PagerdutyConfig.URL c;
         PagerdutyConfig.Client := PagerdutyConfig.Client c;
         PagerdutyConfig.ClientURL := PagerdutyConfig.ClientURL c;
         PagerdutyConfig.Description := PagerdutyConfig.Description c;
         PagerdutyConfig.Details := PagerdutyConfig.Details c;
         PagerdutyConfig.XXX := ∅ |}
  | Pushover => λ c,
      {| PushoverConfig.Token := PushoverConfig.Token c;
         PushoverConfig.UserKey := PushoverConfig.UserKey c;
         PushoverConfig.XXX := ∅ |}
  | Slack => λ c,
      {| SlackConfig.URL := SlackConfig.URL c;
         SlackConfig.Channel := SlackConfig.Channel c;
         SlackConfig.Username := SlackConfig.Username c;
         SlackConfig.Color := SlackConfig.Color c;
         SlackConfig.Title := SlackConfig.Title c;
         SlackConfig.TitleLink := SlackConfig.TitleLink c;
         SlackConfig.Pretext := SlackConfig.Pretext c;
         SlackConfig.Text := SlackConfig.Text c;
         SlackConfig.Fallback := SlackConfig.Fallback c;
         SlackConfig.XXX := ∅ |}
  | Webhook => λ c,
      {| WebhookConfig.URL := WebhookConfig.URL c; WebhookConfig.XXX := ∅ |}
  | OpsGenie => λ c,
      {| OpsGenieConfig.APIKey := OpsGenieConfig.APIKey c;
         OpsGenieConfig.APIHost := OpsGenieConfig.APIHost c;
         OpsGenieConfig.Description := OpsGenieConfig.Description c;
         OpsGenieConfig.Source := OpsGenieConfig.Source c;
         OpsGenieConfig.Details := OpsGenieConfig.Details c;
         OpsGenieConfig.XXX := ∅ |}
  | Flowdock => λ c,
      {| FlowdockConfig.APIToken := FlowdockConfig.APIToken c;
         FlowdockConfig.FromAddress := FlowdockConfig.FromAddress c;
         FlowdockConfig.Tags := FlowdockConfig.Tags c;
         FlowdockConfig.XXX := ∅ |}
  end.

(** The callback for the same document with its unknown keys left out. *)
Definition without_residual (v : variant) (unmarshal : unmarshaler (config v)) :
    unmarshaler (config v) :=
  λ c h, let r := unmarshal c h in Outcome (err r) (clear_XXX v (recv r)) (mem r).

(** ** The decoder behind the callback

    The YAML library is not part of the repository.  Concrete documents are run
    through this decoder, which follows the contract the spec gives for it: a
    key that matches a field of the receiver type is coerced to the field's
    type and overlaid on the value it is handed, a field whose key is absent
    keeps what it held, and a key that matches no field is recorded verbatim in
    the catch-all map.  A type mismatch fails with a coercion error.  A mapping
    is overlaid on the map object the field already refers to; only a nil field
    gets a new object. *)

#[global] Instance error_bind : MBind (sum error) :=
  λ A B f x, match x with inl e => inl e | inr a => f a end.
#[global] Instance error_ret : MRet (sum error) := λ A a, inr a.

Section Decoder.
Variable variant_name : string.
Variable node : gmap string yaml.

Definition str_field (key : string) (old : string) : error + string :=
  match node !! key with
  | None => inr old
  | Some (YStr s) => inr s
  | Some _ => inl (TypeCoercionError variant_name key "string")
  end.

Definition int_field (key : string) (old : Z) : error + Z :=
  match node !! key with
  | None => inr old
  | Some (YInt z) => inr z
  | Some _ => inl (TypeCoercionError variant_name key "integer")
  end.

Definition bool_field (key : string) (old : bool) : error + bool :=
  match node !! key with
  | None => inr old
  | Some (YBool b) => inr b
  | Some _ => inl (TypeCoercionError variant_name key "boolean")
  end.

Fixpoint strings_of (key : string) (items : list yaml) : error + list string :=
  match items with
  | [] => inr []
  | YStr s :: items => ss ← strings_of key items; mret (s :: ss)
  | _ :: _ => inl (TypeCoercionError variant_name key "sequence-of-string")
  end.

Definition seq_field (key : string) (old : list string) : error + list string :=
  match node !! key with
  | None => inr old
  | Some (YSeq items) => strings_of key items
  | Some _ => inl (TypeCoercionError variant_name key "sequence-of-string")
  end.

Fixpoint entries_of (key : string) (entries : list (string * yaml)) :
    error + list (string * string) :=
  match entries with
  | [] => inr []
  | (k, YStr s) :: entries => kvs ← entries_of key entries; mret ((k, s) :: kvs)
  | _ :: _ => inl (TypeCoercionError variant_name key "mapping-of-string-to-string")
  end.

(** The entries to overlay on a map field, or [None] when the key is absent. *)
Definition map_field (key : string) : error + option (list (string * string)) :=
  match node !! key with
  | None => inr None
  | Some (YMap entries) => kvs ← entries_of key entries; mret (Some kvs)
  | Some _ => inl (TypeCoercionError variant_name key "mapping-of-string-to-string")
  end.

(** The keys of the document that match none of the [fields], added to what
    the catch-all map held. *)
Definition residual (fields : list string) (old : gmap string yaml) : gmap string yaml :=
  filter (λ kv, kv.1 ∉ fields) node ∪ old.

End Decoder.

(** Overlaying decoded entries on a map field. *)
Definition overlay_map (kvs : option (list (string * string))) (r : gomap) (h : heap) :
    gomap * heap :=
  match kvs with
  | None => (r, h)
  | Some kvs =>
      let (l, h) := match r with Some l => (l, h) | None => make ∅ h end in
      (Some l, foldl (λ h kv, store l kv.1 kv.2 h) h kvs)
  end.

(** The callback the YAML library passes to [UnmarshalYAML] for the document
    [node], by receiver type ([type plain ...] in the source: the same struct
    without the method). *)
Definition plain_Email (node : gmap string yaml) : unmarshaler EmailConfig.t :=
  λ c h,
    match
      to ← str_field "email" node "to" (EmailConfig.To c);
      from ← str_field "email" node "from" (EmailConfig.From c);
      smarthost ← str_field "email" node "smarthost" (EmailConfig.Smarthost c);
      headers ← map_field "email" node "headers";
      html ← str_field "email" node "html" (EmailConfig.HTML c);
      mret (to, from, smarthost, headers, html)
    with
    | inl e => Outcome (Some e) c h
    | inr (to, from, smarthost, headers, html) =>
        let (hs, h) := overlay_map headers (EmailConfig.Headers c) h in
        Outcome None
          {| EmailConfig.To := to; EmailConfig.From := from;
             EmailConfig.Smarthost := smarthost; EmailConfig.Headers := hs;
             EmailConfig.HTML := html;
             EmailConfig.XXX :=
               residual node ["to"; "from"; "smarthost"; "headers"; "html"]
                 (EmailConfig.XXX c) |} h
    end.

Definition plain_Hipchat (node : gmap string yaml) : unmarshaler HipchatConfig.t :=
  λ c h,
    match
      auth_token ← str_field "hipchat" node "auth_token" (HipchatConfig.AuthToken c);
      room_id ← int_field "hipchat" node "room_id" (HipchatConfig.RoomID c);
      color ← str_field "hipchat" node "color" (HipchatConfig.Color c);
      notify ← bool_field "hipchat" node "notify" (HipchatConfig.Notify c);
      prefix ← str_field "hipchat" node "prefix" (HipchatConfig.Prefix c);
      message_format ←
        str_field "hipchat" node "message_format" (HipchatConfig.MessageFormat c);
      mret (auth_token, room_id, color, notify, prefix, message_format)
    with
    | inl e => Outcome (Some e) c h
    | inr (auth_token, room_id, color, notify, prefix, message_format) =>
        Outcome None
          {| HipchatConfig.AuthToken := auth_token; HipchatConfig.RoomID := room_id;
             HipchatConfig.Color := color; HipchatConfig.Notify := notify;
             HipchatConfig.Prefix := prefix;
             HipchatConfig.MessageFormat := message_format;
             HipchatConfig.XXX :=
               residual node
                 ["auth_token"; "room_id"; "color"; "notify"; "prefix"; "message_format"]
                 (HipchatConfig.XXX c) |} h
    end.

Definition plain_Pagerduty (node : gmap string yaml) : unmarshaler PagerdutyConfig.t :=
  λ c h,
    match
      service_key ← str_field "pagerduty" node "service_key" (PagerdutyConfig.ServiceKey c);
      url ← str_field "pagerduty" node "url" (PagerdutyConfig.URL c);
      client ← str_field "pagerduty" node "client" (PagerdutyConfig.Client c);
      client_url ← str_field "pagerduty" node "client_url" (PagerdutyConfig.ClientURL c);
      description ←
        str_field "pagerduty" node "description" (PagerdutyConfig.Description c);
      details ← map_field "pagerduty" node "details";
      mret (service_key, url, client, client_url, description, details)
    with
    | inl e => Outcome (Some e) c h
    | inr (service_key, url, client, client_url, description, details) =>
        let (ds, h) := overlay_map details (PagerdutyConfig.Details c) h in
        Outcome None
          {| PagerdutyConfig.ServiceKey := service_key; PagerdutyConfig.URL := url;
             PagerdutyConfig.Client := client; PagerdutyConfig.ClientURL := client_url;
             PagerdutyConfig.Description := description;
             PagerdutyConfig.Details := ds;
             PagerdutyConfig.XXX :=
               residual node
                 ["service_key"; "url"; "client"; "client_url"; "description"; "details"]
                 (PagerdutyConfig.XXX c) |} h
    end.

Definition plain_Pushover (node : gmap string yaml) : unmarshaler PushoverConfig.t :=
  λ c h,
    match
      token ← str_field "pushover" node "token" (PushoverConfig.Token c);
      user_key ← str_field "pushover" node "user_key" (PushoverConfig.UserKey c);
      mret (token, user_key)
    with
    | inl e => Outcome (Some e) c h
    | inr (token, user_key) =>
        Outcome None
          {| PushoverConfig.Token := token; PushoverConfig.UserKey := user_key;
             PushoverConfig.XXX :=
               residual node ["token"; "user_key"] (PushoverConfig.XXX c) |} h
    end.

Definition plain_Slack (node : gmap string yaml) : unmarshaler SlackConfig.t :=
  λ c h,
    match
      url ← str_field "slack" node "url" (SlackConfig.URL c);
      channel ← str_field "slack" node "channel" (SlackConfig.Channel c);
      username ← str_field "slack" node "username" (SlackConfig.Username c);
      color ← str_field "slack" node "color" (SlackConfig.Color c);
      title ← str_field "slack" node "title" (SlackConfig.Title c);
      title_link ← str_field "slack" node "title_link" (SlackConfig.TitleLink c);
      pretext ← str_field "slack" node "pretext" (SlackConfig.Pretext c);
      text ← str_field "slack" node "text" (SlackConfig.Text c);
      fallback ← str_field "slack" node "fallback" (SlackConfig.Fallback c);
      mret (url, channel, username, color, title, title_link, pretext, text, fallback)
    with
    | inl e => Outcome (Some e) c h
    | inr (url, channel, username, color, title, title_link, pretext, text, fallback) =>
        Outcome None
          {| SlackConfig.URL := url; SlackConfig.Channel := channel;
             SlackConfig.Username := username; SlackConfig.Color := color;
             SlackConfig.Title := title; SlackConfig.TitleLink := title_link;
             SlackConfig.Pretext := pretext; SlackConfig.Text := text;
             SlackConfig.Fallback := fallback;
             SlackConfig.XXX :=
               residual node
                 ["url"; "channel"; "username"; "color"; "title"; "title_link";
                  "pretext"; "text"; "fallback"]
                 (SlackConfig.XXX c) |} h
    end.

Definition plain_Webhook (node : gmap string yaml) : unmarshaler WebhookConfig.t :=
  λ c h,
    match str_field "webhook" node "url" (WebhookConfig.URL c) with
    | inl e => Outcome (Some e) c h
    | inr url =>
        Outcome None
          {| WebhookConfig.URL := url;
             WebhookConfig.XXX := residual node ["url"] (WebhookConfig.XXX c) |} h
    end.

Definition plain_OpsGenie (node : gmap string yaml) : unmarshaler OpsGenieConfig.t :=
  λ c h,
    match
      api_key ← str_field "opsgenie" node "api_key" (OpsGenieConfig.APIKey c);
      api_host ← str_field "opsgenie" node "api_host" (OpsGenieConfig.APIHost c);
      description ←
        str_field "opsgenie" node "description" (OpsGenieConfig.Description c);
      source ← str_field "opsgenie" node "source" (OpsGenieConfig.Source c);
      details ← map_field "opsgenie" node "details";
      mret (api_key, api_host, description, source, details)
    with
    | inl e => Outcome (Some e) c h
    | inr (api_key, api_host, description, source, details) =>
        let (ds, h) := overlay_map details (OpsGenieConfig.Details c) h in
        Outcome None
          {| OpsGenieConfig.APIKey := api_key; OpsGenieConfig.APIHost := api_host;
             OpsGenieConfig.Description := description;
             OpsGenieConfig.Source := source; OpsGenieConfig.Details := ds;
             OpsGenieConfig.XXX :=
               residual node ["api_key"; "api_host"; "description"; "source"; "details"]
                 (OpsGenieConfig.XXX c) |} h
    end.

Definition plain_Flowdock (node : gmap string yaml) : unmarshaler FlowdockConfig.t :=
  λ c h,
    match
      api_token ← str_field "flowdock" node "api_token" (FlowdockConfig.APIToken c);
      from_address ←
        str_field "flowdock" node "from_address" (FlowdockConfig.FromAddress c);
      tags ← seq_field "flowdock" node "tags" (FlowdockConfig.Tags c);
      mret (api_token, from_address, tags)
    with
    | inl e => Outcome (Some e) c h
    | inr (api_token, from_address, tags) =>
        Outcome None
          {| FlowdockConfig.APIToken := api_token;
             FlowdockConfig.FromAddress := from_address;
             FlowdockConfig.Tags := tags;
             FlowdockConfig.XXX :=
               residual node ["api_token"; "from_address"; "tags"]
                 (FlowdockConfig.XXX c) |} h
    end.

Definition plain (v : variant) (node : gmap string yaml) : unmarshaler (config v) :=
  match v with
  | Email => plain_Email node
  | Hipchat => plain_Hipchat node
  | Pagerduty => plain_Pagerduty node
  | Pushover => plain_Pushover node
  | Slack => plain_Slack node
  | Webhook => plain_Webhook node
  | OpsGenie => plain_OpsGenie node
  | Flowdock => plain_Flowdock node
  end.

(** The zero value of each receiver type: what the YAML library allocates
    before it calls the method. *)
Definition zero (v : variant) : config v :=
  match v with
  | Email =>
      {| EmailConfig.To := ""; EmailConfig.From := ""; EmailConfig.Smarthost := "";
         EmailConfig.Headers := None; EmailConfig.HTML := ""; EmailConfig.XXX := ∅ |}
  | Hipchat =>
      {| HipchatConfig.AuthToken := ""; HipchatConfig.RoomID := 0;
         HipchatConfig.Color := ""; HipchatConfig.Notify := false;
         HipchatConfig.Prefix := ""; HipchatConfig.MessageFormat := "";
         HipchatConfig.XXX := ∅ |}
  | Pagerduty =>
      {| PagerdutyConfig.ServiceKey := ""; PagerdutyConfig.URL := "";
         PagerdutyConfig.Client := ""; PagerdutyConfig.ClientURL := "";
         PagerdutyConfig.Description := ""; PagerdutyConfig.Details := None;
         PagerdutyConfig.XXX := ∅ |}
  | Pushover =>
      {| PushoverConfig.Token := ""; PushoverConfig.UserKey := "";
         PushoverConfig.XXX := ∅ |}
  | Slack =>
      {| SlackConfig.URL := ""; SlackConfig.Channel := ""; SlackConfig.Username := "";
         SlackConfig.Color := ""; SlackConfig.Title := ""; SlackConfig.TitleLink := "";
         SlackConfig.Pretext := ""; SlackConfig.Text := ""; SlackConfig.Fallback := "";
         SlackConfig.XXX := ∅ |}
  | Webhook => {| WebhookConfig.URL := ""; WebhookConfig.XXX := ∅ |}
  | OpsGenie =>
      {| OpsGenieConfig.APIKey := ""; OpsGenieConfig.APIHost := "";
         OpsGenieConfig.Description := ""; OpsGenieConfig.Source := "";
         OpsGenieConfig.Details := None; OpsGenieConfig.XXX := ∅ |}
  | Flowdock =>
      {| FlowdockConfig.APIToken := ""; FlowdockConfig.FromAddress := "";
         FlowdockConfig.Tags := []; FlowdockConfig.XXX := ∅ |}
  end.

(** Decoding the block [node] as a receiver of variant [v] in the store [h]. *)
Definition decode `{Runtime} (v : variant) (node : gmap string yaml) (h : heap) :
    outcome (config v) :=
  UnmarshalYAML v (plain v node) (zero v) h.


(** ** A runtime to run examples on

    ASCII header names, upper-cased byte by byte, and the map's own listing
    as the order of iteration. *)
Definition ascii_runtime : Runtime.
Proof.
  refine {| ToTitle := upper;
            ToTitle_ascii := λ s _, eq_refl;
            ToTitle_no_lower := _;
            range := map_to_list;
            range_perm := λ m, reflexivity (map_to_list m) |}.
  induction s as [|a s IH]; [reflexivity|].
  cbn [upper has_lower]. rewrite IH, orb_false_r.
  unfold upper_byte. destruct (is_lower a) eqn:E; [|exact E].
  unfold is_lower in *. cbv zeta in *.
  apply andb_true_iff in E as [E1 E2]. apply N.leb_le in E1, E2.
  rewrite N_ascii_embedding by lia.
  apply andb_false_iff. left. apply N.leb_gt. lia.
Defined.

(** ** Notions the properties are stated with *)

(** [if _, ok := m[k]; !ok { m[k] = v }] on the entries of a map: a header
    that is already there makes the insertion of a default a no-op. *)
Definition add_default (k v : string) (m : strmap) : strmap :=
  match m !! k with
  | Some _ => m
  | None => <[k := v]> m
  end.

(** The headers of an accepted Email block: the normalized map with the three
    defaults filled in where absent, in the order of the source. *)
Definition completed (c : EmailConfig.t) (nm : strmap) : strmap :=
  add_default "From" (EmailConfig.From c)
    (add_default "To" (EmailConfig.To c)
       (add_default "Subject" EmailConfig.DefaultEmailSubject nm)).

(** What an error message names: the text occurs in the format or in one of
    the arguments (for the residual-keys error: in the context or in a key). *)
Fixpoint occurs_in (s t : string) : bool :=
  String.prefix s t ||
  match t with
  | EmptyString => false
  | String _ t' => occurs_in s t'
  end.

Definition names (e : error) (s : string) : bool :=
  match e with
  | Errorf format args => occurs_in s format || existsb (occurs_in s) args
  | UnrecognizedFields ctx keys => occurs_in s ctx || existsb (occurs_in s) (elements keys)
  | TypeCoercionError v f x => occurs_in s v || occurs_in s f || occurs_in s x
  end.

(** The value a decode produced, written out as a block again: every field
    under its key, the headers as a mapping. *)
Definition block_of_Email (c : EmailConfig.t) (h : heap) : gmap string yaml :=
  {[ "to" := YStr (EmailConfig.To c);
     "from" := YStr (EmailConfig.From c);
     "smarthost" := YStr (EmailConfig.Smarthost c);
     "headers" :=
       YMap ((λ kv, (kv.1, YStr kv.2))
               <$> map_to_list (deref h (EmailConfig.Headers c)));
     "html" := YStr (EmailConfig.HTML c) ]}.

Definition block_of_Webhook (c : WebhookConfig.t) : gmap string yaml :=
  {[ "url" := YStr (WebhookConfig.URL c) ]}.

(** The required fields of each variant, by the checks of its method. *)
Definition required (v : variant) : config v → list string :=
  match v with
  | Email => λ c, [EmailConfig.To c]
  | Hipchat => λ c, [HipchatConfig.AuthToken c]
  | Pagerduty => λ c, [PagerdutyConfig.ServiceKey c]
  | Pushover => λ c, [PushoverConfig.Token c; PushoverConfig.UserKey c]
  | Slack => λ c, [SlackConfig.Channel c]
  | Webhook => λ c, [WebhookConfig.URL c]
  | OpsGenie => λ c, [OpsGenieConfig.APIKey c]
  | Flowdock => λ c, [FlowdockConfig.APIToken c; FlowdockConfig.FromAddress c]
  end.

(** The check a method makes between the required fields and the catch-all
    map: the message format of Hipchat, the collision of header names of
    Email; the other methods make none. *)
Definition domain_ok `{Runtime} (v : variant) : config v → heap → Prop :=
  match v with
  | Hipchat => λ c _,
      HipchatConfig.MessageFormat c ∈ [HipchatFormatHTML; HipchatFormatText]
  | Email => λ c h,
      ∀ a b, is_Some (deref h (EmailConfig.Headers c) !! a) →
             is_Some (deref h (EmailConfig.Headers c) !! b) →
             ToTitle a = ToTitle b → a = b
  | _ => λ _ _, True
  end.

(** Two receivers that agree on every field the validation does not write:
    all of them, but for the headers of Email. *)
Definition same_fields (v : variant) : config v → config v → Prop :=
  match v with
  | Email => λ c c',
      EmailConfig.To c = EmailConfig.To c' ∧ EmailConfig.From c = EmailConfig.From c'
      ∧ EmailConfig.Smarthost c = EmailConfig.Smarthost c'
      ∧ EmailConfig.HTML c = EmailConfig.HTML c'
      ∧ EmailConfig.XXX c = EmailConfig.XXX c'
  | _ => λ c c', c = c'
  end.

(** The duplicate-header error of [EmailConfig.UnmarshalYAML]. *)
Definition duplicate_header (q : string) : error :=
  Errorf "duplicate header %q in email config" [q].

(** The key of each required field in a block, with the message of the check
    that guards it, in the order of the checks. *)
Definition required_keys (v : variant) : list (string * string) :=
  match v with
  | Email => [("to", "missing to address in email config")]
  | Hipchat => [("auth_token", "missing auth token in HipChat config")]
  | Pagerduty => [("service_key", "missing service key in PagerDuty config")]
  | Pushover => [("token", "missing token in Pushover config");
                 ("user_key", "missing user key in Pushover config")]
  | Slack => [("channel", "missing channel in Slack config")]
  | Webhook => [("url", "missing URL in webhook config")]
  | OpsGenie => [("api_key", "missing API key in OpsGenie config")]
  | Flowdock => [("api_token", "missing API token in Flowdock config");
                 ("from_address", "missing from address in Flowdock config")]
  end.

(** Whether the method starts with [*c = Default...]. *)
Definition resets (v : variant) : bool :=
  match v with
  | Pushover | Webhook | Flowdock => false
  | _ => true
  end.

(** The callback of an empty document: it writes nothing. *)
Definition untouched {T : Type} : unmarshaler T := λ c h, Outcome None c h.

(** A second runtime, which visits the entries of a map in the opposite
    order. *)
Definition reversed_runtime : Runtime :=
  {| ToTitle := @ToTitle ascii_runtime;
     ToTitle_ascii := @ToTitle_ascii ascii_runtime;
     ToTitle_no_lower := @ToTitle_no_lower ascii_runtime;
     range := λ m, reverse (map_to_list m);
     range_perm := λ m, reverse_Permutation (map_to_list m) |}.

(** Unfolding the methods in a goal that dispatches on the variant. *)
Ltac unfold_methods :=
  unfold EmailConfig.UnmarshalYAML, HipchatConfig.UnmarshalYAML,
    PagerdutyConfig.UnmarshalYAML, PushoverConfig.UnmarshalYAML,
    SlackConfig.UnmarshalYAML, WebhookConfig.UnmarshalYAML,
    OpsGenieConfig.UnmarshalYAML, FlowdockConfig.UnmarshalYAML.

(** The fields the checks read, and the fields of an outcome. *)
Ltac read_fields :=
  cbn [err recv mem
       EmailConfig.To EmailConfig.Headers EmailConfig.XXX EmailConfig.with_Headers
       HipchatConfig.AuthToken HipchatConfig.MessageFormat HipchatConfig.XXX
       PagerdutyConfig.ServiceKey PagerdutyConfig.XXX
       PushoverConfig.Token PushoverConfig.UserKey PushoverConfig.XXX
       SlackConfig.Channel SlackConfig.XXX WebhookConfig.URL WebhookConfig.XXX
       OpsGenieConfig.APIKey OpsGenieConfig.XXX
       FlowdockConfig.APIToken FlowdockConfig.FromAddress FlowdockConfig.XXX] in *.

(** Taking the field decoders of a callback apart, one by one. *)
Ltac split_fields :=
  repeat (match goal with
          | |- context [str_field ?a ?b ?k ?o] => destruct (str_field a b k o)
          | |- context [int_field ?a ?b ?k ?o] => destruct (int_field a b k o)
          | |- context [bool_field ?a ?b ?k ?o] => destruct (bool_field a b k o)
          | |- context [seq_field ?a ?b ?k ?o] => destruct (seq_field a b k o)
          | |- context [map_field ?a ?b ?k] => destruct (map_field a b k)
          end; cbn [mbind mret error_bind error_ret err]; try done).

(** * Properties *)

(** ** The store *)

Lemma deref_make (m : strmap) (h : heap) :
  deref (make m h).2 (Some (make m h).1) = m.
Proof.
  unfold make, deref. cbn [fst snd].
  rewrite lookup_app_r by lia. by rewrite Nat.sub_diag.
Qed.

Lemma range_empty `{Runtime} : range ∅ = [].
Proof.
  apply Permutation_nil_r. rewrite range_perm. by rewrite map_to_list_empty.
Qed.

Lemma range_lookup `{Runtime} (m : strmap) k v : (k, v) ∈ range m ↔ m !! k = Some v.
Proof. rewrite range_perm. apply elem_of_map_to_list. Qed.

Lemma range_NoDup `{Runtime} (m : strmap) : NoDup (range m).*1.
Proof. rewrite range_perm. apply NoDup_fst_map_to_list. Qed.

(** ** Header normalization *)

Section Normalize.
Context `{Runtime}.
Import EmailConfig.

Lemma set_if_absent_lookup l k v (h : heap) m :
  h !! l = Some m → set_if_absent l k v h = <[l := add_default k v m]> h.
Proof.
  intros Hl. unfold set_if_absent, add_default, deref, store. rewrite Hl. cbn.
  destruct (m !! k).
  - by rewrite list_insert_id.
  - apply list_eq. intros i. destruct (decide (i = l)) as [->|].
    + rewrite list_lookup_alter_eq, Hl. cbn.
      by rewrite list_lookup_insert_eq by (by eapply lookup_lt_Some).
    + by rewrite list_lookup_alter_ne, list_lookup_insert_ne.
Qed.

(** When the loop accepts the headers, no two names share a canonical form and
    none was in the map before. *)
Lemma normalize_inr_NoDup entries acc m :
  normalize entries acc = inr m →
  NoDup (ToTitle <$> entries.*1) ∧ ∀ k, k ∈ entries.*1 → acc !! ToTitle k = None.
Proof.
  revert acc. induction entries as [|[k v] entries IH]; intros acc Hn.
  - split; [constructor|]. intros k Hk. by apply elem_of_nil in Hk.
  - cbn in Hn. destruct (acc !! ToTitle k) eqn:Hk; [done|].
    apply IH in Hn as [Hnd Hfresh]. split.
    + cbn. constructor; [|done]. intros Hin.
      apply list_elem_of_fmap in Hin as (k' & Heq & Hk').
      specialize (Hfresh k' Hk'). rewrite <- Heq in Hfresh.
      by rewrite lookup_insert_eq in Hfresh.
    + intros k' Hk'. cbn in Hk'. apply elem_of_cons in Hk' as [->|Hk']; [done|].
      specialize (Hfresh k' Hk').
      apply lookup_insert_None in Hfresh. tauto.
Qed.

(** The entries of the map the loop builds: what was there, and every supplied
    value under the canonical form of its name. *)
Lemma normalize_inr_lookup entries acc m q v :
  normalize entries acc = inr m →
  m !! q = Some v ↔ acc !! q = Some v ∨ ∃ k, (k, v) ∈ entries ∧ ToTitle k = q.
Proof.
  revert acc. induction entries as [|[k w] entries IH]; intros acc Hn.
  - cbn in Hn. injection Hn as ->. split; [tauto|].
    intros [?|(k & Hk & _)]; [done|]. by apply elem_of_nil in Hk.
  - cbn in Hn. destruct (acc !! ToTitle k) eqn:Hk; [done|].
    rewrite (IH _ Hn). rewrite lookup_insert_Some. split.
    + intros [[[<- <-]|[_ ?]]|(k' & Hk' & <-)].
      * right. exists k. split; [left|done].
      * by left.
      * right. exists k'. split; [by right|done].
    + intros [Hq|(k' & Hk' & <-)].
      * left. right. split; [congruence|done].
      * apply elem_of_cons in Hk' as [[= -> ->]|Hk'].
        -- left. by left.
        -- right. eauto.
Qed.

(** When the loop rejects the headers, the name it stops at has the canonical
    form of a name visited before it (or of an entry already in the map), and
    the error names that form. *)
Lemma normalize_inl_split entries acc e :
  normalize entries acc = inl e →
  ∃ before k v after,
    entries = before ++ (k, v) :: after ∧
    e = Errorf "duplicate header %q in email config" [ToTitle k] ∧
    (is_Some (acc !! ToTitle k) ∨ ∃ k', k' ∈ before.*1 ∧ ToTitle k' = ToTitle k).
Proof.
  revert acc. induction entries as [|[k v] entries IH]; intros acc Hn; [done|].
  cbn in Hn. destruct (acc !! ToTitle k) eqn:Hk.
  - injection Hn as <-. exists [], k, v, entries. eauto.
  - apply IH in Hn as (before & k' & v' & after & -> & -> & Hdup).
    exists ((k, v) :: before), k', v', after. split_and!; [done..|].
    destruct Hdup as [Hacc|(k'' & Hk'' & Heq)].
    + destruct (decide (ToTitle k = ToTitle k')) as [Heq|Hne].
      * right. exists k. split; [cbn; left|done].
      * left. by rewrite lookup_insert_ne in Hacc.
    + right. exists k''. split; [cbn; by right|done].
Qed.

(** The loop over the entries of a map fails exactly when two distinct names
    of the map share a canonical form. *)
Lemma normalize_range_inl (hs : strmap) e :
  normalize (range hs) ∅ = inl e →
  ∃ a b, a ≠ b ∧ is_Some (hs !! a) ∧ is_Some (hs !! b) ∧ ToTitle a = ToTitle b ∧
         e = Errorf "duplicate header %q in email config" [ToTitle a].
Proof.
  intros (before & k & v & after & Hsplit & -> & Hdup)%normalize_inl_split.
  destruct Hdup as [[? Hacc]|(k' & Hk' & Heq)]; [by rewrite lookup_empty in Hacc|].
  pose proof (range_NoDup hs) as Hnd. rewrite Hsplit, fmap_app in Hnd.
  apply NoDup_app in Hnd as (_ & Hdisj & _).
  exists k, k'. split_and!; [| | |done|done].
  - intros <-. apply (Hdisj k Hk'). cbn. left.
  - exists v. apply range_lookup. rewrite Hsplit. apply elem_of_app. right. left.
  - apply list_elem_of_fmap in Hk' as ([k0 v0] & -> & Hin). exists v0.
    apply range_lookup. rewrite Hsplit. apply elem_of_app. by left.
Qed.

Lemma normalize_range_inr (hs m : strmap) a b :
  normalize (range hs) ∅ = inr m →
  is_Some (hs !! a) → is_Some (hs !! b) → ToTitle a = ToTitle b → a = b.
Proof.
  intros [Hnd _]%normalize_inr_NoDup [va Ha] [vb Hb] Heq.
  apply range_lookup in Ha, Hb.
  apply list_elem_of_lookup in Ha as [i Hi], Hb as [j Hj].
  assert (i = j) as ->.
  { eapply NoDup_lookup; [exact Hnd|..].
    - rewrite !list_lookup_fmap, Hi. reflexivity.
    - rewrite !list_lookup_fmap, Hj. cbn. by rewrite Heq. }
  congruence.
Qed.

End Normalize.

(** ** EmailConfig.UnmarshalYAML, path by path *)

Section Email.
Context `{Runtime}.
Import EmailConfig.

Lemma UnmarshalYAML_unmarshal_error unmarshal c h e :
  err (unmarshal DefaultEmailConfig h) = Some e →
  UnmarshalYAML unmarshal c h = unmarshal DefaultEmailConfig h.
Proof. intros He. unfold UnmarshalYAML. cbv zeta. by rewrite He. Qed.

Lemma UnmarshalYAML_missing_to unmarshal c h :
  let r := unmarshal DefaultEmailConfig h in
  err r = None → To (recv r) = "" →
  UnmarshalYAML unmarshal c h =
    Outcome (Some (Errorf "missing to address in email config" [])) (recv r) (mem r).
Proof.
  cbv zeta. intros He Hto. unfold UnmarshalYAML. cbv zeta. rewrite He.
  by destruct (decide _).
Qed.

Lemma UnmarshalYAML_duplicate unmarshal c h e :
  let r := unmarshal DefaultEmailConfig h in
  err r = None → To (recv r) ≠ "" →
  normalize (range (deref (mem r) (Headers (recv r)))) ∅ = inl e →
  UnmarshalYAML unmarshal c h = Outcome (Some e) (recv r) (mem r).
Proof.
  cbv zeta. intros He Hto Hn. unfold UnmarshalYAML. cbv zeta. rewrite He.
  destruct (decide _); [done|]. by rewrite Hn.
Qed.

Lemma UnmarshalYAML_normalized unmarshal c h nm :
  let r := unmarshal DefaultEmailConfig h in
  err r = None → To (recv r) ≠ "" →
  normalize (range (deref (mem r) (Headers (recv r)))) ∅ = inr nm →
  UnmarshalYAML unmarshal c h =
    Outcome (checkOverflow (XXX (recv r)) "email config")
      (with_Headers (recv r) (Some (length (mem r))))
      (mem r ++ [completed (recv r) nm]).
Proof.
  cbv zeta. intros He Hto Hn. unfold UnmarshalYAML. cbv zeta. rewrite He.
  destruct (decide _); [done|]. rewrite Hn. unfold make. cbn [with_Headers To From XXX].
  set (h1 := mem (unmarshal DefaultEmailConfig h)).
  assert (∀ m : strmap, (h1 ++ [m]) !! length h1 = Some m) as Hlast.
  { intros m. rewrite lookup_app_r by lia. by rewrite Nat.sub_diag. }
  assert (∀ m m' : strmap, <[length h1 := m']> (h1 ++ [m]) = h1 ++ [m']) as Hset.
  { intros m m'. rewrite insert_app_r_alt by lia. by rewrite Nat.sub_diag. }
  rewrite (set_if_absent_lookup _ _ _ _ _ (Hlast _)), Hset.
  rewrite (set_if_absent_lookup _ _ _ _ _ (Hlast _)), Hset.
  rewrite (set_if_absent_lookup _ _ _ _ _ (Hlast _)), Hset.
  reflexivity.
Qed.

(** A canonical form holds no ASCII lower-case letter, so the normalized map
    has no entry under a name that holds one. *)
Lemma normalized_no_lower (hs nm : strmap) q :
  normalize (range hs) ∅ = inr nm → has_lower q = true → nm !! q = None.
Proof.
  intros Hn Hq. destruct (nm !! q) as [v|] eqn:Hv; [|done].
  apply (normalize_inr_lookup _ _ _ _ _ Hn) in Hv as [Hv|(k & _ & <-)].
  - by rewrite lookup_empty in Hv.
  - by rewrite ToTitle_no_lower in Hq.
Qed.

(** Hence each of the three defaults is inserted, whatever was supplied. *)
Lemma completed_insert (hs nm : strmap) c :
  normalize (range hs) ∅ = inr nm →
  completed c nm =
    <["From" := From c]> (<["To" := To c]> (<["Subject" := DefaultEmailSubject]> nm)).
Proof.
  intros Hn. unfold completed, add_default.
  rewrite (normalized_no_lower _ _ "Subject" Hn) by done.
  rewrite lookup_insert_ne by done.
  rewrite (normalized_no_lower _ _ "To" Hn) by done.
  rewrite !lookup_insert_ne by done.
  by rewrite (normalized_no_lower _ _ "From" Hn) by done.
Qed.

(** Every way the method can end. *)
Lemma UnmarshalYAML_cases unmarshal c h :
  let r := unmarshal DefaultEmailConfig h in
  let out := UnmarshalYAML unmarshal c h in
  (∃ e, err r = Some e ∧ out = r)
  ∨ (err r = None ∧ To (recv r) = "" ∧
     out = Outcome (Some (Errorf "missing to address in email config" []))
             (recv r) (mem r))
  ∨ (∃ e, err r = None ∧ To (recv r) ≠ "" ∧
     normalize (range (deref (mem r) (Headers (recv r)))) ∅ = inl e ∧
     out = Outcome (Some e) (recv r) (mem r))
  ∨ (∃ nm, err r = None ∧ To (recv r) ≠ "" ∧
     normalize (range (deref (mem r) (Headers (recv r)))) ∅ = inr nm ∧
     out = Outcome (checkOverflow (XXX (recv r)) "email config")
             (with_Headers (recv r) (Some (length (mem r))))
             (mem r ++ [completed (recv r) nm])).
Proof.
  cbv zeta. destruct (err (unmarshal DefaultEmailConfig h)) as [e|] eqn:He.
  { left. exists e. split; [done|]. by eapply UnmarshalYAML_unmarshal_error. }
  right. destruct (decide (To (recv (unmarshal DefaultEmailConfig h)) = "")) as [Hto|Hto].
  { left. split_and!; [done..|]. by apply UnmarshalYAML_missing_to. }
  right.
  destruct (normalize (range (deref (mem (unmarshal DefaultEmailConfig h))
              (Headers (recv (unmarshal DefaultEmailConfig h))))) ∅) as [e|nm] eqn:Hn.
  - left. exists e. split_and!; [done..|]. by apply UnmarshalYAML_duplicate.
  - right. exists nm. split_and!; [done..|]. by apply UnmarshalYAML_normalized.
Qed.

End Email.

(** ** The residual-keys check *)

Lemma checkOverflow_empty ctx : checkOverflow ∅ ctx = None.
Proof. unfold checkOverflow. rewrite map_size_empty. by destruct (decide _); [lia|]. Qed.

Lemma checkOverflow_nonempty (m : gmap string yaml) ctx :
  m ≠ ∅ → checkOverflow m ctx = Some (UnrecognizedFields ctx (dom m)).
Proof.
  intros Hm. unfold checkOverflow. destruct (decide _) as [|Hsize]; [done|].
  destruct Hm. apply map_size_empty_iff. lia.
Qed.

(** Acceptance means that nothing is left in the catch-all map and that the
    required fields are there. *)
Lemma checkOverflow_None (m : gmap string yaml) ctx : checkOverflow m ctx = None → m = ∅.
Proof.
  unfold checkOverflow. destruct (decide _) as [|Hsize]; [done|].
  intros _. apply map_size_empty_iff. lia.
Qed.

(** ** The store across a call *)

(** The methods themselves write to no map object that was there before:
    every object is as the callback left it, and only [EmailConfig] adds one
    (the normalized headers). *)
Lemma UnmarshalYAML_store `{Runtime} (v : variant)
    (unmarshal : unmarshaler (config v)) (c : config v) (h : heap) :
  ∃ fresh, mem (UnmarshalYAML v unmarshal c h) = mem (unmarshal (seed v c) h) ++ fresh.
Proof.
  destruct v; cbn [UnmarshalYAML seed config];
    try (unfold_methods; cbv zeta;
         destruct (unmarshal _ h) as [[e|] c1 h1]; read_fields;
         repeat case_decide; exists []; by rewrite app_nil_r).
  destruct (UnmarshalYAML_cases unmarshal c h)
    as [(e & _ & ->)|[(_ & _ & ->)|[(e & _ & _ & _ & ->)|(nm & _ & _ & _ & ->)]]];
    cbn [mem]; eauto using app_nil_r.
  all: exists []; by rewrite app_nil_r.
Qed.

Lemma range_singleton `{Runtime} k v : range {[ k := v ]} = [(k, v)].
Proof.
  apply Permutation_singleton_r. rewrite range_perm. by rewrite map_to_list_singleton.
Qed.

(** * The claims *)

(** C1 (as amended): for every receiver variant and every block whose decode
    leaves a non-empty residual-keys map, validation fails.  The residual-keys
    check is the last one: if the same block without its unknown keys is
    rejected, that error (a missing required field, an invalid message format,
    a duplicate header) is the one reported; if it is accepted, the error is
    the unrecognized-fields error naming every residual key. *)
Theorem C1_residual_check_is_last `{Runtime} (v : variant)
    (unmarshal : unmarshaler (config v)) (c : config v) (h : heap) :
  let r1 := unmarshal (seed v c) h in
  let r := UnmarshalYAML v unmarshal c h in
  let r0 := UnmarshalYAML v (without_residual v unmarshal) c h in
  err r1 = None → XXX v (recv r1) ≠ ∅ →
  is_Some (err r)
  ∧ match err r0 with
    | Some e => err r = Some e
    | None => ∃ ctx, err r = Some (UnrecognizedFields ctx (dom (XXX v (recv r1))))
    end.
Proof.
  cbv zeta. intros He Hres.
  destruct v; cbn [UnmarshalYAML seed XXX config] in *;
    unfold_methods; unfold without_residual; cbv zeta beta;
    destruct (unmarshal _ h) as [e c1 h1]; cbn [err recv mem] in *; subst e;
    cbn [clear_XXX]; read_fields;
    repeat (case_decide; [cbn [err]; split; [by eexists|done]|]);
    try (destruct (EmailConfig.normalize _ _); [cbn [err]; split; [by eexists|done]|]);
    cbn [make err EmailConfig.with_Headers EmailConfig.XXX];
    rewrite checkOverflow_empty, (checkOverflow_nonempty _ _ Hres);
    (split; [by eexists|by eexists]).
Qed.

Lemma C1_witness :
  let node := {[ "url" := YStr "http://x"; "foo" := YInt 1 ]} in
  let r := @decode ascii_runtime Webhook node initial_heap in
  is_Some (err r) ∧ ∃ ctx, err r = Some (UnrecognizedFields ctx {[ "foo" ]}).
Proof.
  cbv zeta.
  destruct (@C1_residual_check_is_last ascii_runtime Webhook
              (plain Webhook {[ "url" := YStr "http://x"; "foo" := YInt 1 ]})
              (zero Webhook) initial_heap) as [Hfail Hlast].
  - vm_compute. reflexivity.
  - intros Heq. apply (f_equal (λ m : gmap string yaml, m !! "foo")) in Heq.
    vm_compute in Heq. discriminate.
  - split; [exact Hfail|]. exact Hlast.
Defined.

(** C1 as stated fails: the residual-keys check does not come first.  A
    Webhook block with an unknown key and no url reports the missing url, and
    a Hipchat block with an unknown key and a wrong message format reports the
    message format. *)
Lemma C1_counterexample :
  let node := {[ "foo" := YInt 1 ]} in
  let node' := {[ "auth_token" := YStr "t"; "message_format" := YStr "xml";
                  "foo" := YInt 1 ]} in
  dom (XXX Webhook (recv (plain Webhook node (zero Webhook) initial_heap))) = {[ "foo" ]}
  ∧ err (@decode ascii_runtime Webhook node initial_heap)
    = Some (Errorf "missing URL in webhook config" [])
  ∧ dom (XXX Hipchat (recv (plain Hipchat node' HipchatConfig.DefaultHipchatConfig
                              initial_heap))) = {[ "foo" ]}
  ∧ err (@decode ascii_runtime Hipchat node' initial_heap)
    = Some (Errorf "invalid message format %q" ["xml"]).
Proof. cbv zeta. repeat split; vm_compute; reflexivity. Qed.

(** C2, run on the code: the Webhook block {url: ""} fails with the missing
    URL error; the Webhook block {url: http://x, foo: 1} fails with the
    unrecognized-fields error naming foo, whose context is the one the method
    passes to [checkOverflow]: [slack config]. *)
Theorem C2_webhook_blocks `{Runtime} :
  err (decode Webhook {[ "url" := YStr "" ]} initial_heap)
  = Some (Errorf "missing URL in webhook config" [])
  ∧ err (decode Webhook {[ "url" := YStr "http://x"; "foo" := YInt 1 ]} initial_heap)
    = Some (UnrecognizedFields "slack config" {[ "foo" ]})
  ∧ names (UnrecognizedFields "slack config" {[ "foo" ]}) "foo" = true
  ∧ names (UnrecognizedFields "slack config" {[ "foo" ]}) "webhook" = false.
Proof. repeat split; vm_compute; reflexivity. Qed.

(** C3, run on the code.  The block {to, from} decodes to the headers Subject,
    To and From; decoding that result again succeeds with six headers, the
    three it was given under SUBJECT, TO and FROM and the three defaults
    beside them.  The block that supplies the header subject decodes to a
    value whose headers hold both SUBJECT and Subject, and decoding that value
    again fails with a duplicate-header error. *)
Theorem C3_email_decode_twice :
  let r := @decode ascii_runtime Email
             {[ "to" := YStr "a@b.com"; "from" := YStr "c@d.com" ]} initial_heap in
  let again := @decode ascii_runtime Email (block_of_Email (recv r) (mem r)) (mem r) in
  let s := @decode ascii_runtime Email
             {[ "to" := YStr "a@b.com"; "from" := YStr "c@d.com";
                "headers" := YMap [("subject", YStr "Custom")] ]} initial_heap in
  let s_again := @decode ascii_runtime Email (block_of_Email (recv s) (mem s)) (mem s) in
  (err r = None ∧ err again = None
   ∧ size (deref (mem r) (EmailConfig.Headers (recv r))) = 3
   ∧ size (deref (mem again) (EmailConfig.Headers (recv again))) = 6
   ∧ deref (mem r) (EmailConfig.Headers (recv r)) !! "SUBJECT" = None
   ∧ deref (mem again) (EmailConfig.Headers (recv again)) !! "SUBJECT"
     = Some EmailConfig.DefaultEmailSubject)
  ∧ (err s = None
     ∧ err s_again = Some (Errorf "duplicate header %q in email config" ["SUBJECT"])).
Proof. cbv zeta. repeat split; vm_compute; reflexivity. Qed.

(** C4, run on the code: an Email block that supplies the header Subject is
    accepted; the supplied value is kept under SUBJECT, and the module default
    is inserted under Subject all the same, whatever the runtime. *)
Theorem C4_supplied_subject_and_default `{Runtime} :
  let r := decode Email
             {[ "to" := YStr "a@b.com"; "from" := YStr "c@d.com";
                "headers" := YMap [("Subject", YStr "Custom")] ]}
             initial_heap in
  err r = None
  ∧ deref (mem r) (EmailConfig.Headers (recv r))
    = {[ "SUBJECT" := "Custom"; "Subject" := EmailConfig.DefaultEmailSubject;
         "To" := "a@b.com"; "From" := "c@d.com" ]}.
Proof.
  cbv zeta. unfold decode. cbn [UnmarshalYAML plain].
  set (node := {[ "to" := YStr "a@b.com"; "from" := YStr "c@d.com";
                  "headers" := YMap [("Subject", YStr "Custom")] ]}).
  pose proof (UnmarshalYAML_normalized (plain_Email node) (zero Email) initial_heap
                {[ "SUBJECT" := "Custom" ]}) as Hrun.
  cbv zeta in Hrun. rewrite Hrun; clear Hrun.
  - split; vm_compute; reflexivity.
  - reflexivity.
  - vm_compute. discriminate.
  - replace (deref _ _) with ({[ "Subject" := "Custom" ]} : strmap)
      by (vm_compute; reflexivity).
    rewrite range_singleton. cbn [EmailConfig.normalize].
    rewrite (ToTitle_ascii "Subject") by reflexivity.
    rewrite lookup_empty. reflexivity.
Qed.

(** C5: for every Email block that reaches header normalization (the callback
    succeeded and left a non-empty [to]) and every headers map it supplies: if
    two distinct supplied names have the same canonical form, decoding fails
    with the duplicate-header error naming the canonical form of such a pair;
    if all supplied names have distinct canonical forms, no duplicate-header
    error occurs: the outcome is that of the residual-keys check alone. *)
Theorem C5_duplicate_header_detection `{Runtime}
    (unmarshal : unmarshaler EmailConfig.t) (c : EmailConfig.t) (h : heap) :
  let r1 := unmarshal EmailConfig.DefaultEmailConfig h in
  let supplied := deref (mem r1) (EmailConfig.Headers (recv r1)) in
  let r := EmailConfig.UnmarshalYAML unmarshal c h in
  err r1 = None → EmailConfig.To (recv r1) ≠ "" →
  ((∃ a b, a ≠ b ∧ is_Some (supplied !! a) ∧ is_Some (supplied !! b)
           ∧ ToTitle a = ToTitle b) →
   ∃ a b, a ≠ b ∧ is_Some (supplied !! a) ∧ is_Some (supplied !! b)
          ∧ ToTitle a = ToTitle b
          ∧ err r = Some (Errorf "duplicate header %q in email config" [ToTitle a]))
  ∧ ((∀ a b, is_Some (supplied !! a) → is_Some (supplied !! b) →
             ToTitle a = ToTitle b → a = b) →
     err r = checkOverflow (EmailConfig.XXX (recv r1)) "email config").
Proof.
  cbv zeta. intros He Hto.
  destruct (EmailConfig.normalize
              (range (deref (mem (unmarshal EmailConfig.DefaultEmailConfig h))
                 (EmailConfig.Headers (recv (unmarshal EmailConfig.DefaultEmailConfig h)))))
              ∅) as [e|nm] eqn:Hn.
  - pose proof (UnmarshalYAML_duplicate unmarshal c h e He Hto Hn) as Hout.
    cbv zeta in Hout. rewrite Hout. cbn [err].
    destruct (normalize_range_inl _ _ Hn) as (a & b & Hab & Ha & Hb & Heq & ->).
    split.
    + intros _. by exists a, b.
    + intros Hinj. destruct Hab. by apply Hinj.
  - pose proof (UnmarshalYAML_normalized unmarshal c h nm He Hto Hn) as Hout.
    cbv zeta in Hout. rewrite Hout. cbn [err]. split; [|done].
    intros (a & b & Hab & Ha & Hb & Heq). destruct Hab.
    by eapply normalize_range_inr.
Qed.

Lemma C5_witness :
  let unmarshal :=
    plain_Email {[ "to" := YStr "a@b.com";
                   "headers" := YMap [("Content-Type", YStr "x");
                                      ("content-type", YStr "y")] ]} in
  let r := @EmailConfig.UnmarshalYAML ascii_runtime unmarshal (zero Email) initial_heap in
  ∃ a b, a ≠ b ∧ upper a = upper b
         ∧ err r = Some (Errorf "duplicate header %q in email config" [upper a]).
Proof.
  cbv zeta.
  destruct (@C5_duplicate_header_detection ascii_runtime
              (plain_Email {[ "to" := YStr "a@b.com";
                              "headers" := YMap [("Content-Type", YStr "x");
                                                 ("content-type", YStr "y")] ]})
              (zero Email) initial_heap) as [Hdup _].
  - vm_compute. reflexivity.
  - vm_compute. discriminate.
  - destruct Hdup as (a & b & Hab & _ & _ & Heq & Herr).
    + exists "Content-Type", "content-type".
      split; [discriminate|].
      split; [eexists; vm_compute; reflexivity|].
      split; [eexists; vm_compute; reflexivity|reflexivity].
    + exists a, b. split; [exact Hab|]. split; [exact Heq|exact Herr].
Defined.

(** The spec's example for C5, run: the headers Content-Type and content-type
    collide on CONTENT-TYPE. *)
Example C5_content_type_example :
  err (@decode ascii_runtime Email
         {[ "to" := YStr "a@b.com";
            "headers" := YMap [("Content-Type", YStr "x"); ("content-type", YStr "y")] ]}
         initial_heap)
  = Some (Errorf "duplicate header %q in email config" ["CONTENT-TYPE"]).
Proof. vm_compute. reflexivity. Qed.

(** C6: decoding the Email block {to: a@b.com, from: c@d.com}, which has no
    headers and no unknown keys, succeeds; the Headers map of the result holds
    To = a@b.com, From = c@d.com and Subject = the module default subject
    template (and nothing else), whatever the runtime. *)
Theorem C6_email_to_from_block `{Runtime} :
  let r := decode Email {[ "to" := YStr "a@b.com"; "from" := YStr "c@d.com" ]}
             initial_heap in
  err r = None ∧
  EmailConfig.XXX (recv r) = ∅ ∧
  deref (mem r) (EmailConfig.Headers (recv r)) =
    {[ "To" := "a@b.com"; "From" := "c@d.com";
       "Subject" := EmailConfig.DefaultEmailSubject ]}.
Proof.
  cbv zeta. unfold decode. cbn [UnmarshalYAML plain].
  set (node := {[ "to" := YStr "a@b.com"; "from" := YStr "c@d.com" ]}).
  pose proof (UnmarshalYAML_normalized (plain_Email node) (zero Email) initial_heap ∅)
    as Hrun.
  cbv zeta in Hrun. rewrite Hrun; clear Hrun.
  - split_and!; vm_compute; reflexivity.
  - reflexivity.
  - vm_compute. discriminate.
  - replace (deref _ _) with (∅ : strmap) by (vm_compute; reflexivity).
    by rewrite range_empty.
Qed.

(** C7 (as amended): for a Hipchat block that reaches the domain check (the
    callback succeeded and left a non-empty auth token), a message format
    other than html and text makes the decode fail with the error
    [invalid message format %q], which names the offending value and nothing
    else; html and text pass the check, and the outcome is then that of the
    residual-keys check.  A block without the key [message_format] keeps the
    default html. *)
Theorem C7_hipchat_message_format `{Runtime}
    (unmarshal : unmarshaler HipchatConfig.t) (c : HipchatConfig.t) (h : heap) :
  let r1 := unmarshal HipchatConfig.DefaultHipchatConfig h in
  let r := UnmarshalYAML Hipchat unmarshal c h in
  err r1 = None → HipchatConfig.AuthToken (recv r1) ≠ "" →
  (HipchatConfig.MessageFormat (recv r1) ∉ [HipchatFormatHTML; HipchatFormatText] →
     err r = Some (Errorf "invalid message format %q"
                     [HipchatConfig.MessageFormat (recv r1)]))
  ∧ (HipchatConfig.MessageFormat (recv r1) ∈ [HipchatFormatHTML; HipchatFormatText] →
       err r = checkOverflow (HipchatConfig.XXX (recv r1)) "hipchat config")
  ∧ (∀ node : gmap string yaml,
       unmarshal = plain_Hipchat node → node !! "message_format" = None →
       HipchatConfig.MessageFormat (recv r1) = HipchatFormatHTML).
Proof.
  cbv zeta. intros He Htoken. cbn [UnmarshalYAML].
  unfold HipchatConfig.UnmarshalYAML. cbv zeta. rewrite He.
  destruct (decide (HipchatConfig.AuthToken _ = "")) as [|_]; [done|].
  split_and!.
  - intros Hnot. rewrite !not_elem_of_cons in Hnot.
    destruct (decide _) as [|Hno]; [done|]. destruct Hno. tauto.
  - intros Hin. rewrite !elem_of_cons, elem_of_nil in Hin.
    destruct (decide _) as [[? ?]|]; [|done]. tauto.
  - intros node -> Hnone. revert He. unfold plain_Hipchat.
    replace (str_field "hipchat" node "message_format"
               (HipchatConfig.MessageFormat HipchatConfig.DefaultHipchatConfig))
      with (inr (B:=string) (A:=error) HipchatFormatHTML)
      by (unfold str_field; by rewrite Hnone).
    repeat (match goal with
            | |- context [str_field ?a ?b ?k ?o] => destruct (str_field a b k o)
            | |- context [int_field ?a ?b ?k ?o] => destruct (int_field a b k o)
            | |- context [bool_field ?a ?b ?k ?o] => destruct (bool_field a b k o)
            end; cbn; try done).
Qed.

Lemma C7_witness :
  let node := {[ "auth_token" := YStr "t"; "room_id" := YInt 7 ]} in
  let r := @decode ascii_runtime Hipchat node initial_heap in
  HipchatConfig.MessageFormat (recv r) = HipchatFormatHTML ∧ err r = None.
Proof.
  cbv zeta.
  destruct (@C7_hipchat_message_format ascii_runtime
              (plain_Hipchat {[ "auth_token" := YStr "t"; "room_id" := YInt 7 ]})
              (zero Hipchat) initial_heap) as (_ & Hpass & Hdefault).
  - vm_compute. reflexivity.
  - vm_compute. discriminate.
  - split.
    + exact (Hdefault _ eq_refl eq_refl).
    + unfold decode, plain. rewrite Hpass.
      * vm_compute. reflexivity.
      * rewrite (Hdefault _ eq_refl eq_refl). left.
Defined.

(** C7 as stated fails: the error for the message format xml names xml, and
    neither member of the accepted set. *)
Lemma C7_counterexample :
  let r := @decode ascii_runtime Hipchat
             {[ "auth_token" := YStr "t"; "message_format" := YStr "xml" ]}
             initial_heap in
  err r = Some (Errorf "invalid message format %q" ["xml"])
  ∧ names (Errorf "invalid message format %q" ["xml"]) "xml" = true
  ∧ names (Errorf "invalid message format %q" ["xml"]) "html" = false
  ∧ names (Errorf "invalid message format %q" ["xml"]) "text" = false.
Proof. cbv zeta. repeat split; vm_compute; reflexivity. Qed.

(** C8: within one receiver the required-field checks come first and the first
    failure is the only error reported.  A Hipchat block whose auth token is
    empty reports the missing auth token whatever its message format; an Email
    block whose [to] is empty fails with the missing-address error and leaves
    the receiver and the store exactly as the callback left them, so its
    headers are never normalized and a duplicate among them is never
    reported; of two missing required fields (Pushover, Flowdock) the first is
    the one reported. *)
Theorem C8_required_fields_first `{Runtime} :
  (∀ (unmarshal : unmarshaler HipchatConfig.t) c h,
     let r1 := unmarshal HipchatConfig.DefaultHipchatConfig h in
     err r1 = None → HipchatConfig.AuthToken (recv r1) = "" →
     err (UnmarshalYAML Hipchat unmarshal c h)
     = Some (Errorf "missing auth token in HipChat config" []))
  ∧ (∀ (unmarshal : unmarshaler EmailConfig.t) c h,
       let r1 := unmarshal EmailConfig.DefaultEmailConfig h in
       err r1 = None → EmailConfig.To (recv r1) = "" →
       UnmarshalYAML Email unmarshal c h
       = Outcome (Some (Errorf "missing to address in email config" []))
           (recv r1) (mem r1))
  ∧ (∀ (unmarshal : unmarshaler PushoverConfig.t) c h,
       let r1 := unmarshal c h in
       err r1 = None → PushoverConfig.Token (recv r1) = "" →
       err (UnmarshalYAML Pushover unmarshal c h)
       = Some (Errorf "missing token in Pushover config" []))
  ∧ (∀ (unmarshal : unmarshaler FlowdockConfig.t) c h,
       let r1 := unmarshal c h in
       err r1 = None → FlowdockConfig.APIToken (recv r1) = "" →
       err (UnmarshalYAML Flowdock unmarshal c h)
       = Some (Errorf "missing API token in Flowdock config" [])).
Proof.
  split_and!; cbv zeta; intros unmarshal c h He Hreq; cbn [UnmarshalYAML].
  - unfold HipchatConfig.UnmarshalYAML. cbv zeta. rewrite He.
    by destruct (decide _).
  - by apply UnmarshalYAML_missing_to.
  - unfold PushoverConfig.UnmarshalYAML. cbv zeta. rewrite He.
    by destruct (decide _).
  - unfold FlowdockConfig.UnmarshalYAML. cbv zeta. rewrite He.
    by destruct (decide _).
Qed.

Lemma C8_witness :
  err (@decode ascii_runtime Hipchat
         {[ "auth_token" := YStr ""; "message_format" := YStr "xml" ]} initial_heap)
  = Some (Errorf "missing auth token in HipChat config" [])
  ∧ err (@decode ascii_runtime Email
           {[ "to" := YStr "";
              "headers" := YMap [("Content-Type", YStr "x"); ("content-type", YStr "y")] ]}
           initial_heap)
    = Some (Errorf "missing to address in email config" []).
Proof.
  destruct (@C8_required_fields_first ascii_runtime) as (Hhip & Hemail & _ & _).
  split.
  - apply Hhip; vm_compute; reflexivity.
  - unfold decode. rewrite Hemail; [reflexivity|vm_compute; reflexivity..].
Defined.

(** C9, run on the code: [*c = DefaultPagerdutyConfig] copies the struct and
    with it the reference held in [Details], not the map object.  A block
    without [details] is accepted with the registry's own map object in its
    [Details] field; a block with [details: {foo: bar}] is accepted too, and
    the overlay through the shared reference leaves the entry foo in the map
    object of [DefaultPagerdutyConfig]. *)
Theorem C9_pagerduty_details_are_shared `{Runtime} :
  let registry := PagerdutyConfig.Details PagerdutyConfig.DefaultPagerdutyConfig in
  let r := decode Pagerduty {[ "service_key" := YStr "k" ]} initial_heap in
  let r' := decode Pagerduty
              {[ "service_key" := YStr "k"; "details" := YMap [("foo", YStr "bar")] ]}
              initial_heap in
  (err r = None ∧ PagerdutyConfig.Details (recv r) = registry)
  ∧ (err r' = None ∧ PagerdutyConfig.Details (recv r') = registry)
  ∧ deref initial_heap registry = PagerdutyConfig.DefaultDetails
  ∧ deref (mem r') registry = <["foo" := "bar"]> PagerdutyConfig.DefaultDetails
  ∧ PagerdutyConfig.DefaultDetails !! "foo" = None.
Proof. cbv zeta. repeat split; vm_compute; reflexivity. Qed.

(** C10: after every successful Email decode the Headers map has entries under
    the exact keys Subject, To and From: Headers[To] is the To field,
    Headers[From] the From field and Headers[Subject] the module default
    subject template.  Every supplied header is found under the canonical
    (title-cased, that is upper-cased) form of its name, every other entry of
    the result is such a header, and apart from the three exact keys no name
    with a lower-case letter in it is a key of the result. *)
Theorem C10_email_headers_invariant `{Runtime}
    (unmarshal : unmarshaler EmailConfig.t) (c : EmailConfig.t) (h : heap) :
  let supplied :=
    deref (mem (unmarshal EmailConfig.DefaultEmailConfig h))
      (EmailConfig.Headers (recv (unmarshal EmailConfig.DefaultEmailConfig h))) in
  let r := EmailConfig.UnmarshalYAML unmarshal c h in
  err r = None →
  ∃ l m,
    EmailConfig.Headers (recv r) = Some l ∧ mem r !! l = Some m ∧
    m !! "Subject" = Some EmailConfig.DefaultEmailSubject ∧
    m !! "To" = Some (EmailConfig.To (recv r)) ∧
    m !! "From" = Some (EmailConfig.From (recv r)) ∧
    (∀ k v, supplied !! k = Some v → m !! ToTitle k = Some v) ∧
    (∀ q v, m !! q = Some v →
       q ∈ ["Subject"; "To"; "From"] ∨ ∃ k, supplied !! k = Some v ∧ q = ToTitle k) ∧
    (∀ k, has_lower k = true → k ∉ ["Subject"; "To"; "From"] → m !! k = None).
Proof.
  cbv zeta. intros Hok.
  destruct (UnmarshalYAML_cases unmarshal c h)
    as [(e & He & Hout)|[(He & Hto & Hout)|[(e & He & Hto & Hn & Hout)
       |(nm & He & Hto & Hn & Hout)]]];
    cbv zeta in Hout; rewrite Hout in Hok |- *; cbn in Hok; try congruence.
  set (r1 := unmarshal EmailConfig.DefaultEmailConfig h) in *.
  exists (length (mem r1)), (completed (recv r1) nm). cbn.
  rewrite (completed_insert _ _ _ Hn).
  assert (∀ q, has_lower q = true → q ∉ ["Subject"; "To"; "From"] →
            <["From" := EmailConfig.From (recv r1)]>
              (<["To" := EmailConfig.To (recv r1)]>
                 (<["Subject" := EmailConfig.DefaultEmailSubject]> nm)) !! q = None)
    as Hlower.
  { intros q Hq Hnot. rewrite !not_elem_of_cons in Hnot.
    destruct Hnot as (? & ? & ? & _).
    rewrite !lookup_insert_ne by done. by eapply normalized_no_lower. }
  split_and!; [done| |by simplify_map_eq..| | |done].
  - rewrite lookup_app_r by lia. by rewrite Nat.sub_diag.
  - intros k v Hk.
    assert (nm !! ToTitle k = Some v) as Hnm.
    { apply (normalize_inr_lookup _ _ _ _ _ Hn). right. exists k.
      split; [by apply range_lookup|done]. }
    assert (has_lower (ToTitle k) = false) as Hl by apply ToTitle_no_lower.
    rewrite !lookup_insert_ne; [done|intros Heq; by rewrite <- Heq in Hl..].
  - intros q v Hq.
    destruct (decide (q ∈ ["Subject"; "To"; "From"])) as [|Hnot]; [by left|right].
    rewrite !not_elem_of_cons in Hnot. destruct Hnot as (? & ? & ? & _).
    rewrite !lookup_insert_ne in Hq by done.
    apply (normalize_inr_lookup _ _ _ _ _ Hn) in Hq as [Hq|(k & Hk & <-)].
    + by rewrite lookup_empty in Hq.
    + exists k. split; [by apply range_lookup|done].
Qed.

Lemma C10_witness :
  let unmarshal :=
    plain_Email {[ "to" := YStr "a@b.com"; "from" := YStr "c@d.com";
                   "headers" := YMap [("X-Team", YStr "ops")] ]} in
  let r := @EmailConfig.UnmarshalYAML ascii_runtime unmarshal (zero Email) initial_heap in
  ∃ l m,
    EmailConfig.Headers (recv r) = Some l ∧ mem r !! l = Some m ∧
    m !! "Subject" = Some EmailConfig.DefaultEmailSubject ∧
    m !! "To" = Some "a@b.com" ∧ m !! "From" = Some "c@d.com" ∧
    m !! "X-TEAM" = Some "ops" ∧ m !! "X-Team" = None.
Proof.
  cbv zeta.
  destruct (@C10_email_headers_invariant ascii_runtime
              (plain_Email {[ "to" := YStr "a@b.com"; "from" := YStr "c@d.com";
                              "headers" := YMap [("X-Team", YStr "ops")] ]})
              (zero Email) initial_heap)
    as (l & m & Hl & Hm & HS & HT & HF & Hsup & _ & Hlow).
  { vm_compute. reflexivity. }
  exists l, m. split_and!; [exact Hl|exact Hm|exact HS|exact HT|exact HF| |].
  - apply (Hsup "X-Team" "ops"). vm_compute. reflexivity.
  - apply Hlow; [reflexivity|]. intros Hin.
    repeat (apply elem_of_cons in Hin as [Hin|Hin]; [discriminate|]).
    by apply elem_of_nil in Hin.
Defined.

(** * Further properties of the methods *)

(** An accepted receiver has nothing left in its catch-all map and none of its
    required fields is empty, for every variant and every callback. *)
Theorem accepted_is_valid `{Runtime} (v : variant)
    (unmarshal : unmarshaler (config v)) (c : config v) (h : heap) :
  let r := UnmarshalYAML v unmarshal c h in
  err r = None → XXX v (recv r) = ∅ ∧ "" ∉ required v (recv r).
Proof.
  cbv zeta.
  destruct v; cbn [UnmarshalYAML XXX required config];
    unfold_methods; cbv zeta;
    destruct (unmarshal _ h) as [[e|] c1 h1]; read_fields; try done;
    repeat (case_decide; [done|]);
    try (destruct (EmailConfig.normalize _ _); [done|]);
    cbn [make]; read_fields; intros Hok%checkOverflow_None;
    (split; [done|]); rewrite ?not_elem_of_cons; split_and?; try done;
    apply not_elem_of_nil.
Qed.

Lemma accepted_is_valid_witness :
  let r := @decode ascii_runtime Webhook {[ "url" := YStr "http://x" ]} initial_heap in
  XXX Webhook (recv r) = ∅ ∧ "" ∉ required Webhook (recv r).
Proof.
  cbv zeta.
  apply (@accepted_is_valid ascii_runtime Webhook
           (plain Webhook {[ "url" := YStr "http://x" ]}) (zero Webhook) initial_heap).
  vm_compute. reflexivity.
Defined.

(** Where no header is normalized, decoding is idempotent: an accepted
    Webhook receiver, written out as a block and decoded again, is accepted
    with the same value and the same store. *)
Theorem Webhook_decode_twice `{Runtime} (node : gmap string yaml) (h : heap) :
  let r := decode Webhook node h in
  err r = None → decode Webhook (block_of_Webhook (recv r)) (mem r) = r.
Proof.
  cbv zeta. unfold decode. cbn [UnmarshalYAML plain zero config].
  unfold WebhookConfig.UnmarshalYAML, plain_Webhook, block_of_Webhook. cbv zeta.
  cbn [WebhookConfig.URL WebhookConfig.XXX].
  destruct (str_field "webhook" node "url" "") as [e|url]; cbn [err recv mem]; [done|].
  cbn [WebhookConfig.URL WebhookConfig.XXX].
  case_decide as Hurl; [done|]. cbn [err recv mem]. intros Hok.
  pose proof (checkOverflow_None _ _ Hok) as Hres. rewrite Hres.
  cbn [WebhookConfig.URL WebhookConfig.XXX].
  unfold str_field. rewrite lookup_singleton_eq. cbn [err recv mem].
  cbn [WebhookConfig.URL WebhookConfig.XXX].
  case_decide; [done|]. cbn [err recv mem].
  assert (residual {[ "url" := YStr url ]} ["url"] ∅ = ∅) as ->.
  { unfold residual. rewrite map_filter_singleton_False.
    - by rewrite (left_id_L ∅ (∪)).
    - cbn. intros Hnot. apply Hnot. left. }
  by rewrite checkOverflow_empty.
Qed.

Lemma Webhook_decode_twice_witness :
  let r := @decode ascii_runtime Webhook {[ "url" := YStr "http://x" ]} initial_heap in
  @decode ascii_runtime Webhook (block_of_Webhook (recv r)) (mem r) = r.
Proof.
  cbv zeta.
  apply (@Webhook_decode_twice ascii_runtime {[ "url" := YStr "http://x" ]} initial_heap).
  vm_compute. reflexivity.
Defined.

(** ** Acceptance, and what validation leaves alone *)

Lemma checkOverflow_None_iff (m : gmap string yaml) ctx :
  checkOverflow m ctx = None ↔ m = ∅.
Proof.
  split; [apply checkOverflow_None|]. intros ->. apply checkOverflow_empty.
Qed.

Lemma message_format_ok (f : string) :
  ¬ (f ≠ HipchatFormatHTML ∧ f ≠ HipchatFormatText)
  ↔ f ∈ [HipchatFormatHTML; HipchatFormatText].
Proof.
  rewrite !elem_of_cons, elem_of_nil.
  destruct (decide (f = HipchatFormatHTML)), (decide (f = HipchatFormatText)); tauto.
Qed.

(** The acceptance criterion of every method: a block is accepted exactly when
    the callback succeeds, none of the variant's required fields is left empty,
    the variant's own check passes (the message format of Hipchat is html or
    text, no two header names of Email share a canonical form) and the
    catch-all map is empty. *)
Theorem accepted_iff `{Runtime} (v : variant)
    (unmarshal : unmarshaler (config v)) (c : config v) (h : heap) :
  let r1 := unmarshal (seed v c) h in
  err (UnmarshalYAML v unmarshal c h) = None
  ↔ (err r1 = None ∧ ("" ∉ required v (recv r1))
    ∧ domain_ok v (recv r1) (mem r1) ∧ XXX v (recv r1) = ∅).
Proof.
  cbv zeta. destruct v; cbn [UnmarshalYAML seed XXX required domain_ok config].
  2-8: unfold_methods; cbv zeta;
    destruct (unmarshal _ h) as [[e|] c1 h1]; read_fields;
    [split; [done|by intros [? _]]|];
    rewrite <- ?message_format_ok, ?not_elem_of_cons;
    repeat case_decide; cbn [err]; rewrite ?checkOverflow_None_iff;
    (split; [intros Hok|intros (_ & Hreq & Hdom & Hres)]);
    try done; try (exfalso; intuition congruence);
    (split_and?; try done; try apply not_elem_of_nil).
  rewrite not_elem_of_cons.
  destruct (UnmarshalYAML_cases unmarshal c h)
    as [(e & He & Hout)|[(He & Hto & Hout)|[(e & He & Hto & Hn & Hout)
       |(nm & He & Hto & Hn & Hout)]]];
    cbv zeta in Hout; rewrite Hout; clear Hout; cbn [err].
  - rewrite He. split; [done|by intros [? _]].
  - split; [done|]. intros (_ & [Hne _] & _). by destruct Hne.
  - split; [done|]. intros (_ & _ & Hinj & _).
    destruct (normalize_range_inl _ _ Hn) as (a & b & Hab & Ha & Hb & Heq & _).
    destruct Hab. by apply Hinj.
  - rewrite checkOverflow_None_iff. split; [|by intros (_ & _ & _ & ?)].
    intros Hres. split_and!; [done|done|apply not_elem_of_nil| |done].
    intros a b Ha Hb Heq. by eapply normalize_range_inr.
Qed.

(** Validation reads the receiver and leaves it alone.  Whatever the outcome,
    every field but the headers of Email is as the callback left it; for every
    variant but Email so is the store; and a block rejected with one of the
    methods' messages leaves receiver and store exactly as the callback left
    them, with no normalized headers behind. *)
Theorem validation_is_read_only `{Runtime} (v : variant)
    (unmarshal : unmarshaler (config v)) (c : config v) (h : heap) :
  let r1 := unmarshal (seed v c) h in
  let r := UnmarshalYAML v unmarshal c h in
  same_fields v (recv r1) (recv r)
  ∧ (v ≠ Email → recv r = recv r1 ∧ mem r = mem r1)
  ∧ (∀ format args, err r = Some (Errorf format args) →
       recv r = recv r1 ∧ mem r = mem r1).
Proof.
  cbv zeta. destruct v; cbn [UnmarshalYAML seed same_fields config].
  2-8: unfold_methods; cbv zeta;
    destruct (unmarshal _ h) as [[e|] c1 h1]; read_fields;
    repeat case_decide; cbn [err recv mem]; by split_and!.
  destruct (UnmarshalYAML_cases unmarshal c h)
    as [(e & He & Hout)|[(He & Hto & Hout)|[(e & He & Hto & Hn & Hout)
       |(nm & He & Hto & Hn & Hout)]]];
    cbv zeta in Hout; rewrite Hout; clear Hout; cbn [err recv mem];
    try by split_and!.
  split_and!; try done.
  intros format args Hover. unfold checkOverflow in Hover.
  by case_decide.
Qed.

(** The map the header loop builds does not depend on the order in which the
    entries are visited. *)
Lemma normalize_order (R1 R2 : Runtime) (hs nm1 nm2 : strmap) :
  @ToTitle R1 = @ToTitle R2 →
  @EmailConfig.normalize R1 (@range R1 hs) ∅ = inr nm1 →
  @EmailConfig.normalize R2 (@range R2 hs) ∅ = inr nm2 →
  nm1 = nm2.
Proof.
  intros Htt Hn1 Hn2. apply map_eq. intros q. apply option_eq. intros v.
  rewrite (@normalize_inr_lookup R1 _ _ _ q v Hn1).
  rewrite (@normalize_inr_lookup R2 _ _ _ q v Hn2).
  rewrite lookup_empty, Htt.
  split; (intros [|(k & Hk & Hq)]; [done|]); right; exists k; (split; [|done]).
  - apply (@range_lookup R2). by apply (@range_lookup R1) in Hk.
  - apply (@range_lookup R1). by apply (@range_lookup R2) in Hk.
Qed.

(** Go leaves the order of a [range] over a map open.  For two runs of
    [EmailConfig.UnmarshalYAML] that differ in that order only, the receiver
    and the store come out the same, and so does the error, unless both runs
    report a duplicate header: then the header named may differ. *)
Theorem iteration_order_is_irrelevant (R1 R2 : Runtime)
    (unmarshal : unmarshaler EmailConfig.t) (c : EmailConfig.t) (h : heap) :
  @ToTitle R1 = @ToTitle R2 →
  let r := @EmailConfig.UnmarshalYAML R1 unmarshal c h in
  let r' := @EmailConfig.UnmarshalYAML R2 unmarshal c h in
  recv r = recv r' ∧ mem r = mem r'
  ∧ (err r = err r'
     ∨ ∃ q q', err r = Some (duplicate_header q) ∧ err r' = Some (duplicate_header q')).
Proof.
  intros Htt. cbv zeta.
  destruct (@UnmarshalYAML_cases R1 unmarshal c h)
    as [(e & He & Hout)|[(He & Hto & Hout)|[(e & He & Hto & Hn & Hout)
       |(nm & He & Hto & Hn & Hout)]]];
    cbv zeta in Hout; rewrite Hout; clear Hout;
    destruct (@UnmarshalYAML_cases R2 unmarshal c h)
      as [(e' & He' & Hout)|[(He' & Hto' & Hout)|[(e' & He' & Hto' & Hn' & Hout)
         |(nm' & He' & Hto' & Hn' & Hout)]]];
    cbv zeta in Hout; rewrite Hout; clear Hout; cbn [err recv mem];
    try congruence; try (split_and!; [done..|by left]).
  - split_and!; [done..|]. right.
    destruct (@normalize_range_inl R1 _ _ Hn) as (a & _ & _ & _ & _ & _ & ->).
    destruct (@normalize_range_inl R2 _ _ Hn') as (a' & _ & _ & _ & _ & _ & ->).
    by eexists _, _.
  - exfalso.
    destruct (@normalize_range_inl R1 _ _ Hn) as (a & b & Hab & Ha & Hb & Heq & _).
    rewrite Htt in Heq. destruct Hab. by eapply (@normalize_range_inr R2).
  - exfalso.
    destruct (@normalize_range_inl R2 _ _ Hn') as (a & b & Hab & Ha & Hb & Heq & _).
    rewrite <- Htt in Heq. destruct Hab. by eapply (@normalize_range_inr R1).
  - rewrite (normalize_order R1 R2 _ _ _ Htt Hn Hn'). split_and!; [done..|by left].
Qed.

Lemma iteration_order_is_irrelevant_witness :
  let unmarshal :=
    plain_Email {[ "to" := YStr "a@b.com";
                   "headers" := YMap [("X-Team", YStr "ops"); ("Reply-To", YStr "r@b.com")] ]} in
  let r := @EmailConfig.UnmarshalYAML ascii_runtime unmarshal (zero Email) initial_heap in
  let r' := @EmailConfig.UnmarshalYAML reversed_runtime unmarshal (zero Email) initial_heap in
  recv r = recv r' ∧ mem r = mem r'
  ∧ (err r = err r'
     ∨ ∃ q q', err r = Some (duplicate_header q) ∧ err r' = Some (duplicate_header q')).
Proof.
  cbv zeta.
  exact (iteration_order_is_irrelevant ascii_runtime reversed_runtime _ _ _ eq_refl).
Defined.

Section Sizes.
Context `{Runtime}.

Lemma normalize_inr_size entries acc m :
  EmailConfig.normalize entries acc = inr m → size m = size acc + length entries.
Proof.
  revert acc. induction entries as [|[k v] entries IH]; intros acc Hn.
  - cbn in Hn. injection Hn as ->. cbn. lia.
  - cbn in Hn. destruct (acc !! ToTitle k) eqn:Hk; [done|].
    rewrite (IH _ Hn), map_size_insert_None by done. cbn. lia.
Qed.

Lemma range_length (m : strmap) : length (range m) = size m.
Proof. rewrite range_perm. apply length_map_to_list. Qed.

End Sizes.

(** The headers of an accepted Email block are a map object of their own: the
    reference in the result addresses no object of the store the callback
    left, so the map that was supplied is not the one handed out.  It holds
    exactly three entries more than were supplied. *)
Theorem email_headers_are_new `{Runtime}
    (unmarshal : unmarshaler EmailConfig.t) (c : EmailConfig.t) (h : heap) :
  let r1 := unmarshal EmailConfig.DefaultEmailConfig h in
  let r := EmailConfig.UnmarshalYAML unmarshal c h in
  err r = None →
  ∃ l, EmailConfig.Headers (recv r) = Some l ∧ mem r1 !! l = None
       ∧ size (deref (mem r) (Some l))
         = size (deref (mem r1) (EmailConfig.Headers (recv r1))) + 3.
Proof.
  cbv zeta. intros Hok.
  destruct (UnmarshalYAML_cases unmarshal c h)
    as [(e & He & Hout)|[(He & Hto & Hout)|[(e & He & Hto & Hn & Hout)
       |(nm & He & Hto & Hn & Hout)]]];
    cbv zeta in Hout; rewrite Hout in Hok |- *; cbn [err] in Hok; try congruence.
  set (r1 := unmarshal EmailConfig.DefaultEmailConfig h) in *.
  exists (length (mem r1)). cbn [recv mem EmailConfig.with_Headers EmailConfig.Headers].
  split_and!; [done|by apply lookup_ge_None| ].
  unfold deref at 1. rewrite lookup_app_r by lia. rewrite Nat.sub_diag. cbn.
  rewrite (completed_insert _ _ _ Hn).
  pose proof (normalized_no_lower _ _ "Subject" Hn eq_refl) as HS.
  pose proof (normalized_no_lower _ _ "To" Hn eq_refl) as HT.
  pose proof (normalized_no_lower _ _ "From" Hn eq_refl) as HF.
  rewrite !map_size_insert_None;
    rewrite ?lookup_insert_ne by done; try done.
  rewrite (normalize_inr_size _ _ _ Hn), map_size_empty, range_length. lia.
Qed.

Lemma email_headers_are_new_witness :
  let unmarshal :=
    plain_Email {[ "to" := YStr "a@b.com"; "headers" := YMap [("X-Team", YStr "ops")] ]} in
  let r1 := unmarshal EmailConfig.DefaultEmailConfig initial_heap in
  let r := @EmailConfig.UnmarshalYAML ascii_runtime unmarshal (zero Email) initial_heap in
  ∃ l, EmailConfig.Headers (recv r) = Some l ∧ mem r1 !! l = None
       ∧ size (deref (mem r) (Some l))
         = size (deref (mem r1) (EmailConfig.Headers (recv r1))) + 3.
Proof.
  cbv zeta.
  apply (@email_headers_are_new ascii_runtime
           (plain_Email {[ "to" := YStr "a@b.com";
                           "headers" := YMap [("X-Team", YStr "ops")] ]})
           (zero Email) initial_heap).
  vm_compute. reflexivity.
Defined.

(** Five methods start by overwriting the receiver with the package default,
    three (Pushover, Webhook, Flowdock) decode onto the receiver as it stands.
    For the five, what the receiver held before never reaches the result, and
    an empty document is rejected, since no default fills a required field.
    For the three, an empty document is accepted exactly when the receiver
    already held its required fields and no residual key. *)
Theorem receiver_reset_or_kept `{Runtime} (v : variant) (c : config v) (h : heap) :
  if resets v then
    (∀ unmarshal c', UnmarshalYAML v unmarshal c h = UnmarshalYAML v unmarshal c' h)
    ∧ is_Some (err (UnmarshalYAML v untouched c h))
  else
    err (UnmarshalYAML v untouched c h) = None
    ↔ (("" ∉ required v c) ∧ XXX v c = ∅).
Proof.
  destruct v; cbn [resets UnmarshalYAML required XXX config].
  1-3,5,7: split; [done|];
    unfold_methods; unfold untouched; cbv zeta; read_fields;
    case_decide; [by eexists|done].
  all: unfold_methods; unfold untouched; cbv zeta; read_fields;
    rewrite ?not_elem_of_cons;
    repeat case_decide; cbn [err];
    (split; [intros Hok|intros (Hreq & Hres)]);
    try done; try (exfalso; intuition congruence);
    try (split_and?; try done; try apply not_elem_of_nil;
         by eapply checkOverflow_None);
    rewrite Hres; apply checkOverflow_empty.
Qed.

(** ** Blocks through the decoder *)




Lemma str_field_absent name (node : gmap string yaml) key old :
  node !! key = None → str_field name node key old = inr old.
Proof. intros Hk. unfold str_field. by rewrite Hk. Qed.

Lemma str_field_present name (node : gmap string yaml) key old s :
  node !! key = Some (YStr s) → str_field name node key old = inr s.
Proof. intros Hk. unfold str_field. by rewrite Hk. Qed.

(** No package default fills a required field, and the zero value has none:
    a block that omits the key of a required field, and is decoded without a
    coercion error, is rejected with the message of that field's check,
    provided the required fields checked before it are there.  This holds for
    every variant and each of its required fields. *)
Theorem omitted_required_key_is_rejected `{Runtime} (v : variant)
    (node : gmap string yaml) (h : heap) (i : nat) (k msg : string) :
  required_keys v !! i = Some (k, msg) →
  node !! k = None →
  (∀ j k' msg', j < i → required_keys v !! j = Some (k', msg') →
     ∃ s, s ≠ "" ∧ node !! k' = Some (YStr s)) →
  err (plain v node (seed v (zero v)) h) = None →
  err (decode v node h) = Some (Errorf msg []).
Proof.
  intros Hi Hk Hbefore.
  assert (i = 0 ∨ i = 1 ∧ ∃ k' msg' s,
            required_keys v !! 0 = Some (k', msg') ∧ s ≠ "" ∧ node !! k' = Some (YStr s))
    as Hcases.
  { destruct i as [|[|i]]; [by left| |by destruct v].
    right. split; [done|].
    destruct (required_keys v !! 0) as [[k' msg']|] eqn:H0; [|by destruct v].
    destruct (Hbefore 0 k' msg') as (s & Hs & Hnode); [lia|done|]. by exists k', msg', s. }
  clear Hbefore. unfold decode.
  destruct Hcases as [->|(-> & k' & msg' & s & H0 & Hs & Hk')];
    destruct v; cbn [required_keys] in *; simplify_eq/=;
    unfold_methods; cbv zeta;
    unfold plain_Email, plain_Hipchat, plain_Pagerduty, plain_Pushover, plain_Slack,
      plain_Webhook, plain_OpsGenie, plain_Flowdock;
    cbn [EmailConfig.To HipchatConfig.AuthToken PagerdutyConfig.ServiceKey
         PushoverConfig.Token PushoverConfig.UserKey SlackConfig.Channel
         WebhookConfig.URL OpsGenieConfig.APIKey
         FlowdockConfig.APIToken FlowdockConfig.FromAddress
         EmailConfig.DefaultEmailConfig HipchatConfig.DefaultHipchatConfig
         PagerdutyConfig.DefaultPagerdutyConfig SlackConfig.DefaultSlackConfig
         OpsGenieConfig.DefaultOpsGenieConfig];
    rewrite ?(str_field_absent _ _ _ _ Hk), ?(str_field_present _ _ _ _ _ Hk');
    split_fields;
    try (destruct (overlay_map _ _ _) as [hs h0]); read_fields; intros _;
    repeat (case_decide; try done).
Qed.

Lemma omitted_required_key_is_rejected_witness :
  err (@decode ascii_runtime Pushover {[ "token" := YStr "t" ]} initial_heap)
  = Some (Errorf "missing user key in Pushover config" []).
Proof.
  apply (@omitted_required_key_is_rejected ascii_runtime Pushover
           {[ "token" := YStr "t" ]} initial_heap 1 "user_key").
  - reflexivity.
  - vm_compute. reflexivity.
  - intros [|j] k' msg' Hj Hkey; [|lia]. injection Hkey as <- <-.
    exists "t". split; [discriminate|]. vm_compute. reflexivity.
  - vm_compute. reflexivity.
Defined.
